(** * stltools: the STL reader of [brep.py]

    A shallow embedding of [brep.py] (Python 2): format detection and header
    extraction ([fromstl]), the binary and the text facet generators
    ([_readbinary], [_readtext]), the collector ([allfacets]) and the vector
    helpers ([_add], [_sub], [_cross], [_norm]), followed by the properties
    of the reader that the specification states and by further properties of
    the code.

    Python values are modelled as follows.
    - [str] (a Python 2 byte string) is a list of 8-bit characters;
      token lists are lists of [str].
    - [int] is [Z]; positions in a list and list lengths are [nat].
    - [float] is Rocq's primitive binary64 float, with round-to-nearest
      arithmetic as in CPython.
    - A call that may raise returns a [result]; a generator is the sequence
      of the items it yields together with the way it ends. *)

From Stdlib Require Import ZArith Lia String Ascii List Floats.
From stdpp Require Import base list strings pretty.
From Equations Require Import Equations.
Import ListNotations.

(** ** Python values: byte strings, exceptions, results *)

Definition str := list ascii.

(** A string literal of the source. *)
Definition lit (s : string) : str := list_ascii_of_string s.

(** The exceptions the module raises or lets through. [ValueError] carries
    its message, the only payload the source ever attaches. *)
Inductive exn : Type :=
| ValueError (msg : str)
| IndexError
| OverflowError
| ZeroDivisionError
| StructError.

Inductive result (A : Type) : Type :=
| Ok (a : A)
| Raise (e : exn).

Arguments Ok {A} a.
Arguments Raise {A} e.

Definition bind {A B : Type} (r : result A) (k : A -> result B) : result B :=
  match r with
  | Ok a => k a
  | Raise e => Raise e
  end.

Notation "'let*' x := r 'in' k" := (bind r (fun x => k))
  (at level 10, x pattern, r at level 100, k at level 200, only parsing).

(** ** Built-in operations on [str] and [list] *)

Module Py.

(** [s.startswith(p)] *)
Fixpoint startswith (p s : str) : bool :=
  match p, s with
  | [], _ => true
  | _ :: _, [] => false
  | c :: p', d :: s' => bool_decide (c = d) && startswith p' s'
  end.

(** Position of the first occurrence of [sub] in [s], counted from [i]. *)
Fixpoint find_at (sub s : str) (i : nat) : option nat :=
  if startswith sub s then Some i
  else match s with
       | [] => None
       | _ :: s' => find_at sub s' (S i)
       end.

(** [s.find(sub, start)] for [start >= 0]: the lowest index at or after
    [start] where [sub] occurs, or [-1]. *)
Definition find (s sub : str) (start : nat) : Z :=
  if decide (length s < start)%nat then (-1)%Z
  else match find_at sub (drop start s) start with
       | Some i => Z.of_nat i
       | None => (-1)%Z
       end.

(** [s[i:j]] for [0 <= i]. *)
Definition slice {A : Type} (s : list A) (i j : nat) : list A :=
  take (j - i) (drop i s).

(** [s.replace(old, new)] for a non-empty [old]: the occurrences are found
    left to right and do not overlap; [skip] counts the characters of a
    match that are still to be passed over. *)
Fixpoint replace_from (old new : str) (skip : nat) (s : str) : str :=
  match s with
  | [] => []
  | c :: s' =>
      match skip with
      | S k => replace_from old new k s'
      | O =>
          if startswith old s
          then new ++ replace_from old new (length old - 1) s'
          else c :: replace_from old new 0 s'
      end
  end.

Definition replace (s old new : str) : str := replace_from old new 0 s.

(** [s.lstrip(chars)], [s.rstrip(chars)], [s.strip(chars)] *)
Fixpoint lstrip (s chars : str) : str :=
  match s with
  | [] => []
  | c :: s' => if bool_decide (c ∈ chars) then lstrip s' chars else s
  end.

Definition rstrip (s chars : str) : str := rev (lstrip (rev s) chars).

Definition strip (s chars : str) : str := rstrip (lstrip s chars) chars.

(** The characters [str.isspace] accepts in the C locale: space, tab,
    line feed, vertical tab, form feed, carriage return. *)
Definition whitespace : str :=
  [" "%char; "009"%char; "010"%char; "011"%char; "012"%char; "013"%char].

Definition isspace (c : ascii) : bool := bool_decide (c ∈ whitespace).

(** [s.split()]: the maximal runs of non-whitespace characters. [cur] is the
    run being read, last character first. *)
Fixpoint split_from (cur : str) (s : str) : list str :=
  match s with
  | [] => match cur with [] => [] | _ => [rev cur] end
  | c :: s' =>
      if isspace c
      then match cur with
           | [] => split_from [] s'
           | _ => rev cur :: split_from [] s'
           end
      else split_from (c :: cur) s'
  end.

Definition split (s : str) : list str := split_from [] s.

(** [sep.join(l)] *)
Fixpoint join (sep : str) (l : list str) : str :=
  match l with
  | [] => []
  | [x] => x
  | x :: l' => x ++ sep ++ join sep l'
  end.

(** Position of the first element equal to [x]. *)
Fixpoint index_from (x : str) (l : list str) (i : nat) : option nat :=
  match l with
  | [] => None
  | y :: l' => if bool_decide (y = x) then Some i else index_from x l' (S i)
  end.

(** [l.index(x)] raises [ValueError] when [x] is not in [l]. The text of
    the message, which quotes [x], is not modelled: the one call site catches
    the exception and drops it. *)
Definition index (l : list str) (x : str) : result nat :=
  match index_from x l 0 with
  | Some i => Ok i
  | None => Raise (ValueError (lit "x is not in list"))
  end.

(** [l.count(x)] *)
Definition count (l : list str) (x : str) : nat :=
  length (filter (λ y, y = x) l).

(** [l[i]] for [0 <= i] raises [IndexError] out of range. *)
Definition getitem {A : Type} (l : list A) (i : nat) : result A :=
  match l !! i with
  | Some x => Ok x
  | None => Raise IndexError
  end.

(** [range(0, stop, step)] for a positive [step] *)
Definition range0 (stop step : nat) : list nat :=
  map (λ k, k * step)%nat (seq 0 ((stop + step - 1) / step)).

(** [str(n)] for a natural number, as ['{}'.format(n)] prints it. *)
Definition str_of_nat (n : nat) : str := list_ascii_of_string (pretty n).

End Py.

(** ** Floating-point operations

    [+], [-], [*] and [==] on Python floats are the IEEE 754 binary64
    operations and never raise. [/] and [**] can raise. *)

Module PyFloat.

Open Scope float_scope.

(** [x / y]: CPython's [float_div] refuses a zero divisor. *)
Definition div (x y : float) : result float :=
  if y =? 0 then Raise ZeroDivisionError else Ok (x / y).

(** [iv ** 2], following CPython's [float_pow] at the exponent [2.0], case by
    case: a NaN is returned as it is; an infinity gives [+inf]; a zero
    gives [+0.0]; the sign of a negative base is dropped (the exponent is an
    even integer); [1.0] gives [1.0]; every other base goes to the C
    library's [pow], taken here as the correctly rounded square, and a result
    that is infinite for such a finite base is reported as [OverflowError]
    (underflow to zero is not an error). *)
Definition pow_2 (iv : float) : result float :=
  if is_nan iv then Ok iv
  else if is_infinity iv then Ok infinity
  else if iv =? 0 then Ok 0
  else
    let iv := abs iv in
    if iv =? 1 then Ok 1
    else
      let ix := iv * iv in
      if is_infinity ix then Raise OverflowError else Ok ix.

(** [iv ** 0.5], following [float_pow] at the exponent [0.5]: a NaN is
    returned as it is; an infinity gives [+inf]; a zero gives [+0.0]; a
    negative base is refused with [ValueError]; [1.0] gives [1.0]; every
    other base goes to the C library's [pow], taken here as the correctly
    rounded square root, which cannot overflow. *)
Definition pow_half (iv : float) : result float :=
  if is_nan iv then Ok iv
  else if is_infinity iv then Ok infinity
  else if iv =? 0 then Ok 0
  else if iv <? 0
  then Raise (ValueError
                (lit "negative number cannot be raised to a fractional power"))
  else if iv =? 1 then Ok 1
  else Ok (sqrt iv).

(** The value of a single-precision bit pattern [w] (32 bits), widened to
    binary64, which holds every binary32 value exactly. *)
Definition of_bits32 (w : Z) : float :=
  let sign := Z.testbit w 31 in
  let e := Z.land (Z.shiftr w 23) 255 in
  let m := Z.land w (2 ^ 23 - 1) in
  if (e =? 255)%Z
  then if (m =? 0)%Z then (if sign then neg_infinity else infinity) else nan
  else if (e =? 0)%Z
  then if (m =? 0)%Z then (if sign then neg_zero else zero)
       else SF2Prim (S754_finite sign (Z.to_pos m) (-149))
  else SF2Prim (S754_finite sign (Z.to_pos (m + 2 ^ 23)) (e - 150)).

(** *** [float(s)] on a string

    The literal is an optional sign followed by [inf], [infinity] or [nan]
    (in any case), or by a decimal number: digits with an optional point
    (at least one digit in all) and an optional exponent [e] or [E] with an
    optional sign and at least one digit. Whitespace around the literal is
    ignored, anything else is refused with [ValueError]. The value is the
    decimal number correctly rounded; a number too large gives an
    infinity. *)

Definition digit_val (c : ascii) : option Z :=
  let n := Z.of_N (N_of_ascii c) in
  if ((48 <=? n) && (n <=? 57))%Z then Some (n - 48)%Z else None.

(** The longest prefix of digits of [s], as the pair of its value continued
    from [acc] and its length continued from [len], and what follows it. *)
Fixpoint digits (acc : Z) (len : nat) (s : str) : Z * nat * str :=
  match s with
  | [] => (acc, len, [])
  | c :: s' =>
      match digit_val c with
      | Some d => digits (10 * acc + d)%Z (S len) s'
      | None => (acc, len, s)
      end
  end.

Definition sign_of (s : str) : bool * str :=
  match s with
  | "-"%char :: s' => (true, s')
  | "+"%char :: s' => (false, s')
  | _ => (false, s)
  end.

Definition lower (c : ascii) : ascii :=
  let n := N_of_ascii c in
  if ((65 <=? n) && (n <=? 90))%N then ascii_of_N (n + 32) else c.

(** The binary64 value nearest to [(-1)^neg * m * 10^e], for [0 <= m]. *)
Definition of_decimal (neg : bool) (m e : Z) : float :=
  if (m =? 0)%Z then (if neg then neg_zero else zero)
  else if (0 <=? e)%Z
  then SF2Prim (binary_normalize prec emax
                  ((if neg then - m else m) * 10 ^ e) 0 false)
  else SF2Prim (SFdiv prec emax
                  (S754_finite neg (Z.to_pos m) 0)
                  (S754_finite false (Z.to_pos (10 ^ (- e))) 0)).

(** The exponent part: nothing, or [e], an optional sign and digits up to
    the end of the string. *)
Definition exponent (s : str) : option Z :=
  match s with
  | [] => Some 0%Z
  | c :: s' =>
      if bool_decide (lower c = "e"%char)
      then
        let '(neg, s'') := sign_of s' in
        match digits 0 0 s'' with
        | (x, S _, []) => Some (if neg then - x else x)%Z
        | _ => None
        end
      else None
  end.

Definition of_str (s : str) : result float :=
  let bad := Raise (ValueError (lit "could not convert string to float: " ++ s)) in
  let '(neg, body) := sign_of (Py.strip s Py.whitespace) in
  let word := map lower body in
  if bool_decide (word = lit "inf") || bool_decide (word = lit "infinity")
  then Ok (if neg then neg_infinity else infinity)
  else if bool_decide (word = lit "nan") then Ok nan
  else
    let '(ip, ilen, s1) := digits 0 0 body in
    let '(m, flen, s2) :=
      match s1 with
      | "."%char :: s1' =>
          let '(m, len, s2) := digits ip 0 s1' in (m, len, s2)
      | _ => (ip, O, s1)
      end in
    match (ilen + flen)%nat, exponent s2 with
    | S _, Some e => Ok (of_decimal neg m (e - Z.of_nat flen))
    | _, _ => bad
    end.

End PyFloat.

(** ** [struct.unpack]

    Both formats of the source start with [=]: standard sizes, no padding,
    and the byte order of the machine, little-endian on the machines the
    format is written for. A buffer whose length is not the size of the
    format is refused with [struct.error]. *)

Module Struct.

(** The little-endian unsigned integer held by a byte string. *)
Definition le_uint (bs : str) : Z :=
  fold_right (λ c acc, Z.of_N (N_of_ascii c) + 256 * acc)%Z 0%Z bs.

(** The [f] field at offset [off]. *)
Definition f32_at (b : str) (off : nat) : float :=
  PyFloat.of_bits32 (le_uint (Py.slice b off (off + 4))).

(** [struct.unpack("=80sI", b)] *)
Definition unpack_80sI (b : str) : result (str * Z) :=
  if decide (length b = 84%nat)
  then Ok (take 80 b, le_uint (Py.slice b 80 84))
  else Raise StructError.

(** [struct.unpack("=12x9f2x", b)] *)
Definition unpack_12x9f2x (b : str)
  : result (float * float * float * float * float * float * float * float * float) :=
  if decide (length b = 50%nat)
  then Ok (f32_at b 12, f32_at b 16, f32_at b 20,
           f32_at b 24, f32_at b 28, f32_at b 32,
           f32_at b 36, f32_at b 40, f32_at b 44)
  else Raise StructError.

End Struct.

(** ** Generators

    A generator is described by what a consumer that drains it observes: the
    items yielded, in order, and then either the normal end of the iteration
    or the exception that escapes from the generator's body. *)

Inductive ending : Type :=
| StopIteration
| Uncaught (e : exn).

Definition gen (A : Type) : Type := (list A * ending)%type.

Definition yield {A : Type} (x : A) (rest : gen A) : gen A :=
  (x :: fst rest, snd rest).

Definition finish {A : Type} : gen A := ([], StopIteration).

Definition throw {A : Type} (e : exn) : gen A := ([], Uncaught e).

(** ** The vector helpers of [brep.py] *)

Open Scope float_scope.

Definition vec : Type := (float * float * float)%type.

Definition _add (a b : vec) : vec :=
  let '(a0, a1, a2) := a in
  let '(b0, b1, b2) := b in
  (a0 + b0, a1 + b1, a2 + b2).

Definition _sub (a b : vec) : vec :=
  let '(a0, a1, a2) := a in
  let '(b0, b1, b2) := b in
  (a0 - b0, a1 - b1, a2 - b2).

Definition _cross (a b : vec) : vec :=
  let '(a0, a1, a2) := a in
  let '(b0, b1, b2) := b in
  (a1 * b2 - a2 * b1,
   a2 * b0 - a0 * b2,
   a0 * b1 - a1 * b0).

(** The length [L] that [_norm] computes:
    [(a[0]**2 + a[1]**2 + a[2]**2)**0.5]. *)
Definition magnitude (a : vec) : result float :=
  let '(a0, a1, a2) := a in
  let* x := PyFloat.pow_2 a0 in
  let* y := PyFloat.pow_2 a1 in
  let* z := PyFloat.pow_2 a2 in
  PyFloat.pow_half (x + y + z).

Definition zero_length : exn := ValueError (lit "zero-length normal vector").

Definition _norm (a : vec) : result vec :=
  let '(a0, a1, a2) := a in
  let* L := magnitude a in
  if L =? 0 then Raise zero_length
  else
    let* q0 := PyFloat.div a0 L in
    let* q1 := PyFloat.div a1 L in
    let* q2 := PyFloat.div a2 L in
    Ok (q0, q1, q2).

(** ** The facet generators *)

(** A facet [(a, b, c, n)] and an item [(status, facet)] of a generator,
    where the facet may be [None]. *)
Definition facet : Type := (vec * vec * vec * vec)%type.

Definition item : Type := (str * option facet)%type.

Definition status_ok (cnt : nat) : str :=
  lit "facet " ++ Py.str_of_nat cnt ++ lit " OK".

Definition status_skipped (cnt : nat) : str :=
  lit "skipped degenerate facet " ++ Py.str_of_nat cnt ++ lit ".".

(** The part the two generators share, from the edge vectors to the
    [yield]s, for the facet numbered [cnt] with vertices [a], [b], [c];
    [rest] is what the generator does after it. Only [ValueError] is caught
    around [_norm]; after the [yield] in the handler the body goes on to the
    [yield] below it, with the normal [n] still the cross product. *)
Definition emit (cnt : nat) (a b c : vec) (rest : gen item) : gen item :=
  let u := _sub b a in
  let v := _sub c b in
  let n := _cross u v in
  match _norm n with
  | Ok n' => yield (status_ok cnt, Some (a, b, c, n')) rest
  | Raise (ValueError _) =>
      yield (status_skipped cnt, None)
        (yield (status_skipped cnt, Some (a, b, c, n)) rest)
  | Raise e => throw e
  end.

(** The vertices [a], [b], [c] of a binary record:
    [struct.unpack("=12x9f2x", i)] and the three tuples made of it. *)
Definition record_vertices (i : str) : result (vec * vec * vec) :=
  let* (f1x, f1y, f1z, f2x, f2y, f2z, f3x, f3y, f3z) :=
    Struct.unpack_12x9f2x i in
  let a := (f1x, f1y, f1z) in
  let b := (f2x, f2y, f2z) in
  let c := (f3x, f3y, f3z) in
  Ok (a, b, c).

(** [_readbinary], with [cnt] the value [enumerate] has reached. *)
Fixpoint readbinary_from (cnt : nat) (items : list str) : gen item :=
  match items with
  | [] => finish
  | i :: items' =>
      match record_vertices i with
      | Raise e => throw e
      | Ok (a, b, c) => emit (cnt + 1) a b c (readbinary_from (S cnt) items')
      end
  end.

Definition _readbinary (items : list str) : gen item :=
  readbinary_from 0 items.

(** [(float(items[i]), float(items[i+1]), float(items[i+2]))] *)
Definition vertex_at (items : list str) (i : nat) : result vec :=
  let* sx := Py.getitem items i in
  let* x := PyFloat.of_str sx in
  let* sy := Py.getitem items (i + 1) in
  let* y := PyFloat.of_str sy in
  let* sz := Py.getitem items (i + 2) in
  let* z := PyFloat.of_str sz in
  Ok (x, y, z).

(** The vertices [a], [b], [c] of the facet at the head of a token list,
    read at the offsets 8, 12 and 16. *)
Definition block_vertices (items : list str) : result (vec * vec * vec) :=
  let* a := vertex_at items 8 in
  let* b := vertex_at items 12 in
  let* c := vertex_at items 16 in
  Ok (a, b, c).

(** The [while] loop of [_readtext], entered with the counter at [cnt]. Each
    turn that reads a facet removes at least the token at the head, so the
    loop is defined by recursion on the length of the token list. *)
Equations readtext_from (cnt : nat) (items : list str) : gen item
  by wf (length items) lt :=
readtext_from cnt [] := throw IndexError;
readtext_from cnt (tok :: items') :=
  if bool_decide (tok = lit "facet")
  then
    match block_vertices (tok :: items') with
    | Raise e => throw e
    | Ok (a, b, c) =>
        emit (cnt + 1) a b c
          (readtext_from (cnt + 1) (drop 21 (tok :: items')))
    end
  else finish.
Next Obligation.
  intros. rewrite length_drop. simpl. lia.
Qed.

Definition _readtext (items : list str) : gen item :=
  readtext_from 0 items.

(** ** [fromstl] and [allfacets] *)

(** The characters [fromstl] strips from the name field: NUL, space, tab,
    line feed, carriage return. *)
Definition name_padding : str :=
  ["000"%char; " "%char; "009"%char; "010"%char; "013"%char].

Definition mismatch : exn :=
  ValueError (lit "Number of facets doesn't match file size.").

Definition not_stl : exn := ValueError (lit "Not an STL file.").

(** [fromstl], from the contents [data] of the file on. *)
Definition fromstl (data : str) : result (str * Z * gen item) :=
  if (Py.find data (lit "vertex") 120 =? -1)%Z
  then
    let* (name, nf1) := Struct.unpack_80sI (Py.slice data 0 84) in
    let name := Py.replace name (lit "solid ") (lit "") in
    let name := Py.strip name name_padding in
    let name := if decide (length name = 0%nat) then lit "unknown" else name in
    let data := drop 84 data in
    let facetsz := length data in
    let nf2 := (Z.of_nat facetsz / 50)%Z in
    if bool_decide (nf1 ≠ nf2) then Raise mismatch
    else
      let items := map (λ n, Py.slice data n (n + 50)) (Py.range0 facetsz 50) in
      Ok (name, nf1, _readbinary items)
  else
    let items := map (λ s, Py.strip s Py.whitespace) (Py.split data) in
    match (let* i := Py.index items (lit "solid") in
           let* en := Py.index items (lit "facet") in
           Ok ((i + 1)%nat, en)) with
    | Raise _ => Raise not_stl
    | Ok (sn, en) =>
        let name :=
          if decide (sn = en) then lit "unknown"
          else Py.join (lit " ") (Py.slice items sn en) in
        let nf1 := Z.of_nat (Py.count items (lit "facet")) in
        let items := drop en items in
        Ok (name, nf1, _readtext items)
    end.

(** [allfacets]: the lines printed when [verbose] is set, and the list
    returned, or the exception that escaped from the generator. *)
Definition allfacets (reader : gen item) (verbose : bool)
  : list str * result (list facet) :=
  let '(items, e) := reader in
  let fl :=
    fold_left (λ fl '(stat, facet),
                 match facet with
                 | Some f => fl ++ [f]
                 | None => fl
                 end) items [] in
  (if verbose then map fst items else [],
   match e with
   | StopIteration => Ok fl
   | Uncaught ex => Raise ex
   end).

(** ** Vocabulary of the specification *)

(** The test of [fromstl] that sends an input to the binary branch. *)
Definition is_binary (data : str) : bool :=
  (Py.find data (lit "vertex") 120 =? -1)%Z.

(** The token list the text branch works on. *)
Definition tokens (data : str) : list str :=
  map (λ s, Py.strip s Py.whitespace) (Py.split data).

(** The facet count a binary header declares. *)
Definition declared_count (data : str) : Z :=
  Struct.le_uint (Py.slice data 80 84).

(** The name [fromstl] makes of the 80-byte name field. *)
Definition binary_name (field : str) : str :=
  let trimmed := Py.strip (Py.replace field (lit "solid ") (lit "")) name_padding in
  if decide (length trimmed = 0%nat) then lit "unknown" else trimmed.

(** [s] without the prefix [p], when it starts with it. *)
Definition strip_prefix (p s : str) : str :=
  if Py.startswith p s then drop (length p) s else s.

(** The name as the specification words it: a leading ["solid "] removed,
    the padding trimmed, ["unknown"] when nothing is left. *)
Definition spec_binary_name (field : str) : str :=
  let trimmed := Py.strip (strip_prefix (lit "solid ") field) name_padding in
  if decide (length trimmed = 0%nat) then lit "unknown" else trimmed.

(** The cross product of the edges, before [_norm]. *)
Definition raw_normal (a b c : vec) : vec := _cross (_sub b a) (_sub c b).

(** A facet is degenerate when [_norm] refuses its normal with the
    [ValueError] the generators catch. *)
Definition is_degenerate (a b c : vec) : bool :=
  match _norm (raw_normal a b c) with
  | Raise (ValueError _) => true
  | _ => false
  end.

(** What a generator [run] does for the facet numbered [k] with vertices
    [a], [b], [c] before it goes on as [rest]: two items when the facet is
    degenerate, the marker and then the facet with the cross product as its
    normal; one item when [_norm] returns; and when [_norm] raises anything
    else, the end of the generator with that exception. *)
Definition emits_for (run : gen item) (k : nat) (a b c : vec) (rest : gen item)
  : Prop :=
  (is_degenerate a b c = true →
   run = yield (status_skipped k, None)
           (yield (status_skipped k, Some (a, b, c, raw_normal a b c)) rest))
  ∧ (∀ n, _norm (raw_normal a b c) = Ok n →
          run = yield (status_ok k, Some (a, b, c, n)) rest)
  ∧ (∀ e, _norm (raw_normal a b c) = Raise e → is_degenerate a b c = false →
          run = throw e).

(** A binary record that [_readbinary] gets past: it unpacks, and [_norm]
    returns or refuses the normal as zero-length. *)
Definition settles (i : str) : bool :=
  match record_vertices i with
  | Ok (a, b, c) =>
      match _norm (raw_normal a b c) with
      | Ok _ | Raise (ValueError _) => true
      | Raise _ => false
      end
  | Raise _ => false
  end.

Definition degenerate_record (i : str) : bool :=
  match record_vertices i with
  | Ok (a, b, c) => is_degenerate a b c
  | Raise _ => false
  end.

(** The items a generator yields. *)
Definition yielded {A : Type} (g : gen A) : list A := fst g.

(** ** Sample inputs *)

Module Sample.

Definition NUL : ascii := "000"%char.

(** The four bytes of a 32-bit word, lowest first. *)
Definition le32 (w : Z) : str :=
  map (λ k, ascii_of_N (Z.to_N (Z.land (Z.shiftr w (8 * Z.of_nat k)) 255)))
      (seq 0 4).

(** An 84-byte binary header: the name padded with NUL to 80 bytes, then the
    facet count. *)
Definition header (name : string) (nf : Z) : str :=
  take 80 (lit name ++ repeat NUL 80) ++ le32 nf.

(** A 50-byte binary record whose vertices have the given single-precision
    bit patterns. *)
Definition record (a b c : Z * Z * Z) : str :=
  repeat NUL 12
  ++ flat_map (λ '(x, y, z), le32 x ++ le32 y ++ le32 z) [a; b; c]
  ++ repeat NUL 2.

(** Single-precision bit patterns of 0.0, 1.0 and 2.0. *)
Definition f0 : Z := 0.
Definition f1 : Z := 0x3F800000.
Definition f2 : Z := 0x40000000.

(** The record of the collinear triangle (0,0,0), (1,0,0), (2,0,0) and of
    the triangle (0,0,0), (1,0,0), (0,1,0). *)
Definition collinear : str := record (f0, f0, f0) (f1, f0, f0) (f2, f0, f0).
Definition triangle : str := record (f0, f0, f0) (f1, f0, f0) (f0, f1, f0).

(** One facet of a text file, 21 tokens, with a space after it. *)
Definition facet_text (a b c : string) : string :=
  ("facet normal 0 0 1 outer loop vertex " ++ a ++ " vertex " ++ b
   ++ " vertex " ++ c ++ " endloop endfacet ")%string.

Definition triangle_text : string := facet_text "0 0 0" "1 0 0" "0 1 0".
Definition collinear_text : string := facet_text "0 0 0" "1 0 0" "2 0 0".

(** A triangle with two edges of length 1e100, far from degenerate. *)
Definition huge_text : string := facet_text "0 0 0" "1e100 0 0" "0 1e100 0".

(** A text file of two solids; the header of the first is capitalised. *)
Definition two_solids : str :=
  lit ("Solid a " ++ triangle_text ++ "endsolid a solid b "
       ++ triangle_text ++ "endsolid b").

End Sample.

(** ** Vocabulary of the further properties *)

(** The blocks [[d[n:n+50] for n in range(0, len(d), 50)]] that [fromstl]
    cuts the bytes [d] after the header into. *)
Definition blocks (d : str) : list str :=
  map (λ n, Py.slice d n (n + 50)) (Py.range0 (length d) 50).

(** A finite binary64 value [m * 2^e] that is at most [2^k] in magnitude;
    zeros, infinities and NaN are let through. *)
Definition mag (k : Z) (x : spec_float) : Prop :=
  match x with
  | S754_finite _ m e => (Z.pos m <= 2 ^ (k - e))%Z
  | _ => True
  end.

(** A vector whose coordinates are all of magnitude at most [2^k]. *)
Definition mag_vec (k : Z) (a : vec) : Prop :=
  mag k (Prim2SF a.1.1) ∧ mag k (Prim2SF a.1.2) ∧ mag k (Prim2SF a.2).

(** A binary64 value that is not below zero: a zero of either sign, a
    positive finite value, [+inf] or a NaN. *)
Definition not_negative (x : spec_float) : Prop :=
  match x with
  | S754_finite true _ _ | S754_infinity true => False
  | _ => True
  end.

(** The facet the generators yield for a binary record: its vertices with
    the normalized cross product, or with the cross product itself when
    [_norm] refuses it as zero-length. *)
Definition record_facet (i : str) : option facet :=
  match record_vertices i with
  | Ok (a, b, c) =>
      match _norm (raw_normal a b c) with
      | Ok n => Some (a, b, c, n)
      | Raise (ValueError _) => Some (a, b, c, raw_normal a b c)
      | Raise _ => None
      end
  | Raise _ => None
  end.

(** The shape of the items of a generator that has yielded [k] facets so
    far: the next facet comes with the status ["facet k+1 OK"], or with
    ["skipped degenerate facet k+1."] just after a marker of the same status
    that holds [None]. *)
Fixpoint numbered (k : nat) (l : list item) : bool :=
  match l with
  | [] => true
  | (s, Some _) :: l' => bool_decide (s = status_ok (S k)) && numbered (S k) l'
  | (s, None) :: l' =>
      match l' with
      | (s', Some _) :: l'' =>
          bool_decide (s = status_skipped (S k)) && bool_decide (s' = s)
          && numbered (S k) l''
      | _ => false
      end
  end.

(** A token: not empty, and without a whitespace character. *)
Definition clean (t : str) : Prop :=
  t ≠ [] ∧ Forall (λ c, Py.isspace c = false) t.

(** A vector whose coordinates are numbers: no infinity, no NaN. *)
Definition finite_vec (a : vec) : bool :=
  let '(a0, a1, a2) := a in is_finite a0 && is_finite a1 && is_finite a2.

(** A float that is zero, of either sign. *)
Definition is_zero (x : float) : Prop :=
  match Prim2SF x with S754_zero _ => True | _ => False end.

(** The [ValueError] of [float(s)]. *)
Definition bad_float (s : str) : exn :=
  ValueError (lit "could not convert string to float: " ++ s).

(** A binary file of one record with 25 bytes left over, and one of two
    whole records, the first of a collinear triangle. *)
Definition trailing_file : str :=
  Sample.header "" 1 ++ Sample.triangle ++ repeat Sample.NUL 25.

Definition whole_file : str :=
  Sample.header "solid cube" 2 ++ Sample.collinear ++ Sample.triangle.

(** * Properties *)

(** ** Slices and lengths *)

Lemma length_slice {A : Type} (s : list A) (i j : nat) :
  length (Py.slice s i j) = Nat.min (j - i) (length s - i).
Proof. unfold Py.slice. by rewrite length_take, length_drop. Qed.

Lemma slice_slice_header (data : str) :
  Py.slice (Py.slice data 0 84) 80 84 = Py.slice data 80 84.
Proof.
  unfold Py.slice. simpl. rewrite !drop_0.
  change 84%nat with (80 + 4)%nat at 1.
  rewrite <- take_drop_commute. by rewrite take_take.
Qed.

Lemma take_slice_header (data : str) :
  take 80 (Py.slice data 0 84) = take 80 data.
Proof.
  unfold Py.slice. simpl. rewrite drop_0, take_take. by f_equal.
Qed.

Lemma find_past_end (s sub : str) (start : nat) :
  (length s < start)%nat → Py.find s sub start = (-1)%Z.
Proof. intros H. unfold Py.find. by rewrite decide_True. Qed.

(** An input shorter than the offset of the search is always sent to the
    binary branch. *)
Lemma short_is_binary (data : str) :
  (length data < 120)%nat → is_binary data = true.
Proof. intros H. unfold is_binary. by rewrite find_past_end. Qed.

(** The binary branch, once the header is unpacked. *)
Lemma fromstl_binary_unfold (data : str) :
  is_binary data = true →
  (84 ≤ length data)%nat →
  fromstl data =
    if bool_decide (declared_count data ≠ (Z.of_nat (length data - 84) / 50)%Z)
    then Raise mismatch
    else Ok (binary_name (take 80 data), declared_count data,
             _readbinary (map (λ n, Py.slice (drop 84 data) n (n + 50))
                              (Py.range0 (length data - 84) 50))).
Proof.
  intros Hb Hlen. unfold fromstl, is_binary in *. rewrite Hb.
  unfold Struct.unpack_80sI.
  rewrite decide_True by (rewrite length_slice; lia).
  simpl bind. rewrite slice_slice_header, take_slice_header, length_drop.
  reflexivity.
Qed.

(** ** The header of a binary file *)

Lemma fromstl_too_short (data : str) :
  (length data < 84)%nat → fromstl data = Raise StructError.
Proof.
  intros Hlen. unfold fromstl.
  pose proof (short_is_binary data ltac:(lia)) as Hb.
  unfold is_binary in Hb. rewrite Hb.
  unfold Struct.unpack_80sI.
  rewrite decide_False by (rewrite length_slice; lia).
  reflexivity.
Qed.

(** C10. The binary branch needs 84 bytes: every input shorter than that is
    sent to the binary branch (the search for ["vertex"] starts past its
    end), and [fromstl] fails on it with the error of [struct.unpack], which
    is neither the facet-count mismatch nor the not-an-STL-file error. *)
Theorem fromstl_short_input (data : str) :
  (length data < 84)%nat →
  is_binary data = true
  ∧ fromstl data = Raise StructError
  ∧ fromstl data ≠ Raise mismatch
  ∧ fromstl data ≠ Raise not_stl.
Proof.
  intros Hlen. rewrite (fromstl_too_short data Hlen).
  split; [apply short_is_binary; lia|].
  repeat split; discriminate.
Qed.

Lemma fromstl_short_input_witness :
  (length (lit "solid cube") < 84)%nat
  ∧ is_binary (lit "solid cube") = true
  ∧ fromstl (lit "solid cube") = Raise StructError.
Proof.
  assert (H : (length (lit "solid cube") < 84)%nat) by (vm_compute; lia).
  split; [exact H|].
  destruct (fromstl_short_input (lit "solid cube") H) as (Hb & Hr & _).
  split; [exact Hb | exact Hr].
Defined.

(** C2, amended. For an input of at least 84 bytes sent to the binary
    branch, [fromstl] raises [ValueError] with the fixed message
    ["Number of facets doesn't match file size."] whenever the count the
    header declares differs from the number of whole 50-byte records after
    the header; when the bytes after the header are a multiple of 50 and the
    two counts agree, [fromstl] returns, with the declared count. *)
Theorem fromstl_binary_count (data : str) :
  is_binary data = true →
  (84 ≤ length data)%nat →
  (declared_count data ≠ (Z.of_nat (length data - 84) / 50)%Z →
   fromstl data = Raise mismatch)
  ∧ (declared_count data = (Z.of_nat (length data - 84) / 50)%Z →
     ((length data - 84) mod 50 = 0)%nat →
     ∃ name reader, fromstl data = Ok (name, declared_count data, reader)).
Proof.
  intros Hb Hlen. rewrite (fromstl_binary_unfold data Hb Hlen). split.
  - intros Hne. by rewrite bool_decide_eq_true_2.
  - intros Heq _. rewrite bool_decide_eq_false_2 by (intros Hne; by apply Hne).
    eauto.
Qed.

Lemma fromstl_binary_count_witness :
  fromstl (Sample.header "" 10 ++ repeat Sample.NUL 450) = Raise mismatch
  ∧ ∃ name reader,
      fromstl (Sample.header "" 1 ++ Sample.triangle) = Ok (name, 1%Z, reader).
Proof.
  split.
  - apply (fromstl_binary_count (Sample.header "" 10 ++ repeat Sample.NUL 450));
      [vm_compute; reflexivity | vm_compute; lia | vm_compute; discriminate].
  - apply (fromstl_binary_count (Sample.header "" 1 ++ Sample.triangle));
      [vm_compute; reflexivity | vm_compute; lia
      | vm_compute; reflexivity | vm_compute; reflexivity].
Defined.

(** C2 fails as stated, twice. A file that declares one facet and holds one
    record followed by 25 more bytes is accepted, although the 75 bytes
    after the header are not a multiple of 50: the count is compared with
    the quotient 75 / 50 = 1 only (the 25 bytes then stop the stream with
    the error of [struct.unpack]). And the error raised for a header that
    declares 10 facets before 9 records is the same value as for one that
    declares 3 facets before 7 records: it carries no count. *)
Lemma fromstl_binary_count_counterexample :
  (is_binary (Sample.header "" 1 ++ Sample.triangle ++ repeat Sample.NUL 25)
   = true
   ∧ ((length (Sample.header "" 1 ++ Sample.triangle ++ repeat Sample.NUL 25)
       - 84) mod 50 = 25)%nat
   ∧ fromstl (Sample.header "" 1 ++ Sample.triangle ++ repeat Sample.NUL 25)
     = Ok (lit "unknown", 1%Z,
           ([(lit "facet 1 OK",
              Some ((0, 0, 0), (1, 0, 0), (0, 1, 0), (0, -0, 1))%float)],
            Uncaught StructError)))
  ∧ (fromstl (Sample.header "" 10 ++ repeat Sample.NUL 450) = Raise mismatch
     ∧ fromstl (Sample.header "" 3 ++ repeat Sample.NUL 350) = Raise mismatch).
Proof. vm_compute. repeat split. Qed.

(** ** Normalization *)

Lemma pow_2_raises (x : float) (e : exn) :
  PyFloat.pow_2 x = Raise e → e = OverflowError.
Proof.
  unfold PyFloat.pow_2. intros H.
  repeat match type of H with
         | (if ?b then _ else _) = _ => destruct b
         | (let _ := _ in _) = _ => cbv zeta in H
         end; congruence.
Qed.

Lemma pow_half_raises (x : float) (e : exn) :
  PyFloat.pow_half x = Raise e →
  e = ValueError (lit "negative number cannot be raised to a fractional power").
Proof.
  unfold PyFloat.pow_half. intros H.
  repeat match type of H with
         | (if ?b then _ else _) = _ => destruct b
         end; congruence.
Qed.

Lemma magnitude_raises (a : vec) (e : exn) :
  magnitude a = Raise e → e ≠ zero_length.
Proof.
  destruct a as [[a0 a1] a2]. unfold magnitude, bind. intros H.
  destruct (PyFloat.pow_2 a0) eqn:H0;
    [|apply pow_2_raises in H0; injection H as <-; by subst].
  destruct (PyFloat.pow_2 a1) eqn:H1;
    [|apply pow_2_raises in H1; injection H as <-; by subst].
  destruct (PyFloat.pow_2 a2) eqn:H2;
    [|apply pow_2_raises in H2; injection H as <-; by subst].
  apply pow_half_raises in H. subst e. vm_compute. discriminate.
Qed.

Lemma div_nonzero (x y : float) :
  (y =? 0)%float = false → PyFloat.div x y = Ok (x / y)%float.
Proof. intros H. unfold PyFloat.div. by rewrite H. Qed.

(** [_norm] in terms of the length it computes: the guard on [L] is the
    very test under which [/] would raise, so the divisions go through. *)
Lemma norm_unfold (a0 a1 a2 : float) :
  _norm (a0, a1, a2) =
    match magnitude (a0, a1, a2) with
    | Raise e => Raise e
    | Ok L =>
        if (L =? 0)%float then Raise zero_length
        else Ok (a0 / L, a1 / L, a2 / L)%float
    end.
Proof.
  unfold _norm. destruct (magnitude (a0, a1, a2)) as [L|e]; simpl; [|done].
  destruct (L =? 0)%float eqn:HL; [done|].
  by rewrite !div_nonzero.
Qed.

(** C6, amended. [_norm] raises its zero-length [ValueError] exactly when
    the length [L] it computes exists and is equal to zero under the
    floating-point comparison, with no tolerance; when that length exists
    and is not zero, [_norm] returns the vector divided componentwise by it
    and does not raise; when the computation of the length raises, [_norm]
    raises the same exception. *)
Theorem norm_zero_length (a0 a1 a2 : float) :
  (_norm (a0, a1, a2) = Raise zero_length
   ↔ ∃ L, magnitude (a0, a1, a2) = Ok L ∧ (L =? 0)%float = true)
  ∧ (∀ L, magnitude (a0, a1, a2) = Ok L → (L =? 0)%float = false →
          _norm (a0, a1, a2) = Ok (a0 / L, a1 / L, a2 / L)%float)
  ∧ (∀ e, magnitude (a0, a1, a2) = Raise e → _norm (a0, a1, a2) = Raise e).
Proof.
  rewrite norm_unfold. split; [split|split].
  - destruct (magnitude (a0, a1, a2)) as [L|e] eqn:Hm.
    + destruct (L =? 0)%float eqn:HL; [eauto | discriminate].
    + intros [= ->]. by apply magnitude_raises in Hm.
  - intros (L & -> & ->). reflexivity.
  - intros L -> ->. reflexivity.
  - intros e ->. reflexivity.
Qed.

Lemma norm_zero_length_witness :
  _norm (0, 0, 0)%float = Raise zero_length
  ∧ _norm (3, 0, 4)%float = Ok (3 / 5, 0 / 5, 4 / 5)%float.
Proof.
  split.
  - apply (proj1 (norm_zero_length 0 0 0)). exists 0%float.
    split; vm_compute; reflexivity.
  - apply (proj1 (proj2 (norm_zero_length 3 0 4)) 5%float);
      vm_compute; reflexivity.
Defined.

(** C6 fails as stated on a vector whose length is not zero but whose
    square is out of range: [(0, 0, 2^600)] has the length [2^600], and
    [_norm] neither returns nor raises its zero-length error on it: the
    power operator raises [OverflowError]. *)
Lemma norm_zero_length_counterexample :
  _norm (0, 0, 0x1p+600)%float = Raise OverflowError
  ∧ (0x1p+600 =? 0)%float = false.
Proof. vm_compute. repeat split. Qed.

(** ** What a generator does with one facet *)

Lemma emit_degenerate (k : nat) (a b c : vec) (rest : gen item) :
  is_degenerate a b c = true →
  emit k a b c rest =
    yield (status_skipped k, None)
      (yield (status_skipped k, Some (a, b, c, raw_normal a b c)) rest).
Proof.
  unfold is_degenerate, emit, raw_normal.
  destruct (_norm _) as [n|[]]; (discriminate || reflexivity).
Qed.

Lemma emit_normal (k : nat) (a b c n : vec) (rest : gen item) :
  _norm (raw_normal a b c) = Ok n →
  emit k a b c rest = yield (status_ok k, Some (a, b, c, n)) rest.
Proof. unfold emit, raw_normal. by intros ->. Qed.

(** Any other exception of [_norm] leaves the generator. *)
Lemma emit_uncaught (k : nat) (a b c : vec) (e : exn) (rest : gen item) :
  _norm (raw_normal a b c) = Raise e →
  is_degenerate a b c = false →
  emit k a b c rest = throw e.
Proof.
  unfold is_degenerate, emit, raw_normal. intros ->.
  destruct e; (discriminate || reflexivity).
Qed.

Lemma readbinary_from_cons (cnt : nat) (i : str) (items : list str) (a b c : vec) :
  record_vertices i = Ok (a, b, c) →
  readbinary_from cnt (i :: items) =
    emit (cnt + 1) a b c (readbinary_from (S cnt) items).
Proof. simpl. by intros ->. Qed.

Lemma readtext_from_facet (cnt : nat) (items : list str) (a b c : vec) :
  items !! 0%nat = Some (lit "facet") →
  block_vertices items = Ok (a, b, c) →
  readtext_from cnt items =
    emit (cnt + 1) a b c (readtext_from (cnt + 1) (drop 21 items)).
Proof.
  destruct items as [|tok items']; [done|]. intros [= ->] Hv.
  rewrite readtext_from_equation_2, bool_decide_eq_true_2 by done.
  by rewrite Hv.
Qed.

(** The loop of [_readtext] ends normally at a token other than ["facet"]. *)
Lemma readtext_from_other (cnt : nat) (tok : str) (items : list str) :
  tok ≠ lit "facet" → readtext_from cnt (tok :: items) = finish.
Proof.
  intros H. by rewrite readtext_from_equation_2, bool_decide_eq_false_2.
Qed.

Lemma emit_emits_for (k : nat) (a b c : vec) (rest : gen item) :
  emits_for (emit k a b c rest) k a b c rest.
Proof.
  split; [apply emit_degenerate|]. split.
  - intros n. apply emit_normal.
  - intros e. apply emit_uncaught.
Qed.

(** C3, amended. For a record whose vertices are [a], [b], [c] (a 50-byte
    binary record, or the facet at the head of a token list), when [_norm]
    refuses the normal as zero-length the generator yields two items, the
    marker with [None] and then the facet with the cross product as its
    normal, and goes on with the next record; when [_norm] returns, the
    generator yields exactly one item and goes on; when [_norm] raises
    another exception, that exception ends the generator. *)
Theorem record_emission (cnt : nat) (a b c : vec) :
  (∀ (i : str) (items : list str),
     record_vertices i = Ok (a, b, c) →
     emits_for (readbinary_from cnt (i :: items)) (cnt + 1) a b c
       (readbinary_from (S cnt) items))
  ∧ (∀ items : list str,
       items !! 0%nat = Some (lit "facet") →
       block_vertices items = Ok (a, b, c) →
       emits_for (readtext_from cnt items) (cnt + 1) a b c
         (readtext_from (cnt + 1) (drop 21 items))).
Proof.
  split.
  - intros i items Hv. rewrite (readbinary_from_cons _ _ _ _ _ _ Hv).
    apply emit_emits_for.
  - intros items H0 Hv. rewrite (readtext_from_facet _ _ _ _ _ H0 Hv).
    apply emit_emits_for.
Qed.

Lemma record_emission_witness :
  (readbinary_from 0 [Sample.collinear; Sample.triangle] =
     yield (status_skipped 1, None)
       (yield (status_skipped 1,
               Some ((0, 0, 0), (1, 0, 0), (2, 0, 0), (0, 0, 0))%float)
          (readbinary_from 1 [Sample.triangle]))
   ∧ readbinary_from 1 [Sample.triangle] =
       yield (status_ok 2,
              Some ((0, 0, 0), (1, 0, 0), (0, 1, 0), (0, -0, 1))%float)
         (readbinary_from 2 []))
  ∧ (readtext_from 0 (tokens (lit Sample.collinear_text)) =
       yield (status_skipped 1, None)
         (yield (status_skipped 1,
                 Some ((0, 0, 0), (1, 0, 0), (2, 0, 0), (0, 0, 0))%float)
            (readtext_from 1 (drop 21 (tokens (lit Sample.collinear_text)))))
     ∧ readtext_from 0 (tokens (lit Sample.triangle_text)) =
         yield (status_ok 1,
                Some ((0, 0, 0), (1, 0, 0), (0, 1, 0), (0, -0, 1))%float)
           (readtext_from 1 (drop 21 (tokens (lit Sample.triangle_text))))).
Proof.
  split; split.
  - apply (proj1 (record_emission 0 (0, 0, 0) (1, 0, 0) (2, 0, 0))%float
             Sample.collinear [Sample.triangle]);
      vm_compute; reflexivity.
  - apply (proj1 (record_emission 1 (0, 0, 0) (1, 0, 0) (0, 1, 0))%float
             Sample.triangle []);
      vm_compute; reflexivity.
  - apply (proj2 (record_emission 0 (0, 0, 0) (1, 0, 0) (2, 0, 0))%float
             (tokens (lit Sample.collinear_text)));
      vm_compute; reflexivity.
  - apply (proj2 (record_emission 0 (0, 0, 0) (1, 0, 0) (0, 1, 0))%float
             (tokens (lit Sample.triangle_text)));
      vm_compute; reflexivity.
Defined.

(** C3 fails as stated on a facet that is not degenerate but whose normal
    is too long to be squared: for the triangle (0,0,0), (1e100,0,0),
    (0,1e100,0) of a text file [_norm] raises [OverflowError], which the
    generator does not catch; no item is yielded for the record. *)
Lemma record_emission_counterexample :
  (tokens (lit Sample.huge_text ++ lit "endsolid")) !! 0%nat = Some (lit "facet")
  ∧ (∃ a b c,
       block_vertices (tokens (lit Sample.huge_text ++ lit "endsolid"))
       = Ok (a, b, c)
       ∧ is_degenerate a b c = false
       ∧ _norm (raw_normal a b c) = Raise OverflowError)
  ∧ _readtext (tokens (lit Sample.huge_text ++ lit "endsolid"))
    = ([], Uncaught OverflowError).
Proof.
  split; [vm_compute; reflexivity|]. split; [|vm_compute; reflexivity].
  eexists _, _, _. split; [vm_compute; reflexivity|].
  split; vm_compute; reflexivity.
Qed.

(** ** The collector *)

Lemma collect_fold (items : list item) (acc : list facet) :
  fold_left (λ fl '(stat, facet),
               match facet with
               | Some f => fl ++ [f]
               | None => fl
               end) items acc
  = acc ++ omap snd items.
Proof.
  revert acc. induction items as [|[stat [f|]] items IH]; intros acc; simpl.
  - by rewrite app_nil_r.
  - rewrite IH. by rewrite <- app_assoc.
  - apply IH.
Qed.

(** [allfacets] returns the facet of every item that has one, in order. *)
Lemma allfacets_spec (g : gen item) (verbose : bool) :
  allfacets g verbose =
    (if verbose then map fst (yielded g) else [],
     match snd g with
     | StopIteration => Ok (omap snd (yielded g))
     | Uncaught e => Raise e
     end).
Proof. destruct g as [items e]. unfold allfacets. by rewrite collect_fold. Qed.

(** Over records that all settle, the binary generator ends normally, every
    record contributes one item with a facet, and every degenerate record
    one more item, the marker. *)
Lemma readbinary_item_count (items : list str) (cnt : nat) :
  Forall (λ i, settles i = true) items →
  snd (readbinary_from cnt items) = StopIteration
  ∧ length (yielded (readbinary_from cnt items))
    = (length items + length (filter (λ i, degenerate_record i = true) items))%nat
  ∧ length (omap snd (yielded (readbinary_from cnt items))) = length items.
Proof.
  intros H. revert cnt. induction H as [|i items Hi _ IH]; intros cnt.
  - done.
  - destruct (IH (S cnt)) as (IH1 & IH2 & IH3). clear IH.
    assert (Hd : degenerate_record i = true ∨ degenerate_record i = false)
      by (destruct (degenerate_record i); auto).
    unfold settles in Hi. unfold degenerate_record at 1 2, is_degenerate in Hd.
    simpl readbinary_from.
    destruct (record_vertices i) as [[[a b] c]|] eqn:Hv; [|done].
    unfold emit. fold (raw_normal a b c).
    destruct (_norm (raw_normal a b c)) as [n|[]] eqn:Hn; try done.
    + rewrite filter_cons_False
        by (unfold degenerate_record, is_degenerate; by rewrite Hv, Hn).
      unfold yielded in *. simpl.
      split; [exact IH1|]. split; [exact (f_equal S IH2) | exact (f_equal S IH3)].
    + rewrite filter_cons_True
        by (unfold degenerate_record, is_degenerate; by rewrite Hv, Hn).
      unfold yielded in *. simpl. rewrite <- plus_n_Sm.
      split; [exact IH1|].
      split; [exact (f_equal (λ k, S (S k)) IH2) | exact (f_equal S IH3)].
Qed.

(** [allfacets] returns one facet for every record that settles, degenerate
    or not. *)
Lemma allfacets_one_per_record (items : list str) :
  Forall (λ i, settles i = true) items →
  ∃ fl, allfacets (_readbinary items) false = ([], Ok fl)
        ∧ length fl = length items.
Proof.
  intros H. destruct (readbinary_item_count items 0 H) as (Hend & _ & Hlen).
  rewrite allfacets_spec. unfold _readbinary. rewrite Hend. eauto.
Qed.

(** C1. The code does not drop a degenerate facet. A binary file holds one
    record, of the collinear triangle (0,0,0), (1,0,0), (2,0,0). The
    generator reports the facet as skipped and yields [None], then yields
    the facet all the same, with the zero cross product as its normal, and
    [allfacets] returns it. *)
Theorem allfacets_keeps_degenerate :
  record_vertices Sample.collinear = Ok ((0, 0, 0), (1, 0, 0), (2, 0, 0))%float
  ∧ is_degenerate (0, 0, 0)%float (1, 0, 0)%float (2, 0, 0)%float = true
  ∧ ∃ reader,
      fromstl (Sample.header "solid cube" 1 ++ Sample.collinear)
      = Ok (lit "cube", 1%Z, reader)
      ∧ reader =
          ([(lit "skipped degenerate facet 1.", None);
            (lit "skipped degenerate facet 1.",
             Some ((0, 0, 0), (1, 0, 0), (2, 0, 0), (0, 0, 0))%float)],
           StopIteration)
      ∧ allfacets reader false =
          ([], Ok [((0, 0, 0), (1, 0, 0), (2, 0, 0), (0, 0, 0))%float]).
Proof.
  split; [vm_compute; reflexivity|]. split; [vm_compute; reflexivity|].
  eexists. split; [vm_compute; reflexivity|]. split; vm_compute; reflexivity.
Qed.

(** ** The declared count, the records and the items *)

Lemma length_range0_exact (n : nat) :
  (n mod 50 = 0)%nat → length (Py.range0 n 50) = (n / 50)%nat.
Proof.
  intros H. unfold Py.range0. rewrite length_map, length_seq.
  pose proof (Nat.div_mod_eq n 50). rewrite H in *.
  replace (n + 50 - 1)%nat with (49 + (n / 50) * 50)%nat by lia.
  rewrite Nat.div_add by lia. done.
Qed.

(** A binary file that [fromstl] accepts and whose records are whole has as
    many records as its header declares, each of 50 bytes. *)
Lemma fromstl_binary_records (data : str) (name : str) (nf : Z) (reader : gen item) :
  is_binary data = true →
  (84 ≤ length data)%nat →
  ((length data - 84) mod 50 = 0)%nat →
  fromstl data = Ok (name, nf, reader) →
  let items := map (λ n, Py.slice (drop 84 data) n (n + 50))
                   (Py.range0 (length data - 84) 50) in
  reader = _readbinary items
  ∧ nf = Z.of_nat (length items)
  ∧ Forall (λ i, length i = 50%nat) items.
Proof.
  intros Hb Hlen Hmod. rewrite (fromstl_binary_unfold data Hb Hlen).
  case_bool_decide as Hnf; [done|]. intros [= _ <- <-].
  cbv zeta.
  rewrite length_map, length_range0_exact by done.
  split; [done|]. split.
  - rewrite Hnf. rewrite Nat2Z.inj_div. done.
  - apply Forall_forall. intros i Hi.
    apply list_elem_of_fmap in Hi as (n & -> & Hn).
    unfold Py.range0 in Hn. apply list_elem_of_fmap in Hn as (k & -> & Hk).
    apply elem_of_seq in Hk.
    pose proof (Nat.div_mod_eq (length data - 84) 50) as Hd. rewrite Hmod in Hd.
    replace (length data - 84 + 50 - 1)%nat
      with (49 + ((length data - 84) / 50) * 50)%nat in Hk by lia.
    rewrite Nat.div_add in Hk by lia.
    change (49 / 50)%nat with 0%nat in Hk.
    rewrite length_slice, length_drop. lia.
Qed.

(** The items of an accepted binary file whose records are whole and all
    settle: as many as the header declares, and one more for every
    degenerate record. *)
Lemma fromstl_binary_item_count (data : str) (name : str) (nf : Z) (reader : gen item) :
  is_binary data = true →
  (84 ≤ length data)%nat →
  ((length data - 84) mod 50 = 0)%nat →
  fromstl data = Ok (name, nf, reader) →
  let items := map (λ n, Py.slice (drop 84 data) n (n + 50))
                   (Py.range0 (length data - 84) 50) in
  Forall (λ i, settles i = true) items →
  snd reader = StopIteration
  ∧ Z.of_nat (length (yielded reader))
    = (nf + Z.of_nat (length (filter (λ i, degenerate_record i = true) items)))%Z.
Proof.
  intros Hb Hlen Hmod Hok. cbv zeta. intros Hall.
  destruct (fromstl_binary_records data name nf reader Hb Hlen Hmod Hok)
    as (Hr & Hn & _). cbv zeta in Hr, Hn.
  destruct (readbinary_item_count _ 0 Hall) as (Hend & Hcount & _).
  subst reader nf. split; [exact Hend|].
  rewrite <- Nat2Z.inj_add. f_equal. exact Hcount.
Qed.

(** C4. The stream of an accepted binary file can hold more items than the
    header declares: a file that declares one facet and holds one 50-byte
    record, of a collinear triangle, is accepted with the count 1, and its
    stream yields two items. *)
Theorem fromstl_items_exceed_count :
  declared_count (Sample.header "solid cube" 1 ++ Sample.collinear) = 1%Z
  ∧ ((length (Sample.header "solid cube" 1 ++ Sample.collinear) - 84) / 50 = 1)%nat
  ∧ ((length (Sample.header "solid cube" 1 ++ Sample.collinear) - 84) mod 50 = 0)%nat
  ∧ fromstl (Sample.header "solid cube" 1 ++ Sample.collinear) =
      Ok (lit "cube", 1%Z,
          ([(lit "skipped degenerate facet 1.", None);
            (lit "skipped degenerate facet 1.",
             Some ((0, 0, 0), (1, 0, 0), (2, 0, 0), (0, 0, 0))%float)],
           StopIteration)).
Proof. vm_compute. repeat split. Qed.

(** ** The end of the text stream *)

(** C9. The access [items[0]] at the head of the loop is not always in
    bounds. On the 21 tokens of one facet, with no token after [endfacet],
    the generator yields the facet, removes the 21 tokens, and the next test
    of the loop raises [IndexError] on the empty list. So does the stream of
    a text file of two facets that ends at its last [endfacet]. *)
Theorem readtext_exhausted_list :
  (length (tokens (lit Sample.triangle_text)) = 21%nat
   ∧ drop 21 (tokens (lit Sample.triangle_text)) = []
   ∧ _readtext (tokens (lit Sample.triangle_text)) =
       ([(lit "facet 1 OK",
          Some ((0, 0, 0), (1, 0, 0), (0, 1, 0), (0, -0, 1))%float)],
        Uncaught IndexError))
  ∧ fromstl (lit ("solid a " ++ Sample.triangle_text ++ Sample.triangle_text))
    = Ok (lit "a", 2%Z,
          ([(lit "facet 1 OK",
             Some ((0, 0, 0), (1, 0, 0), (0, 1, 0), (0, -0, 1))%float);
            (lit "facet 2 OK",
             Some ((0, 0, 0), (1, 0, 0), (0, 1, 0), (0, -0, 1))%float)],
           Uncaught IndexError)).
Proof. vm_compute. repeat split. Qed.

(** ** The header of a text file *)

Lemma index_from_Some (x : str) (l : list str) (i j : nat) :
  Py.index_from x l i = Some j → x ∈ l.
Proof.
  revert i. induction l as [|y l IH]; intros i; simpl; [done|].
  case_bool_decide as Hy.
  - intros _. subst y. apply list_elem_of_here.
  - intros H. apply list_elem_of_further. by eapply IH.
Qed.

Lemma index_from_None (x : str) (l : list str) (i : nat) :
  Py.index_from x l i = None → x ∉ l.
Proof.
  revert i. induction l as [|y l IH]; intros i; simpl.
  - intros _. apply not_elem_of_nil.
  - case_bool_decide as Hy; [done|]. intros H.
    apply not_elem_of_cons. split; [congruence | by eapply IH].
Qed.

(** [l.index(x)] returns exactly when [x] is in [l]. *)
Lemma index_Ok_iff (l : list str) (x : str) :
  (∃ i, Py.index l x = Ok i) ↔ x ∈ l.
Proof.
  unfold Py.index. destruct (Py.index_from x l 0) as [j|] eqn:H.
  - split; [intros _; by eapply index_from_Some | eauto].
  - split; [by intros [i [=]] | intros Hin; by apply index_from_None in H].
Qed.

(** The position [l.index(x)] returns is that of the first occurrence. *)
Lemma index_from_first (x : str) (pre post : list str) (i : nat) :
  x ∉ pre → Py.index_from x (pre ++ x :: post) i = Some (i + length pre)%nat.
Proof.
  revert i. induction pre as [|y pre IH]; intros i Hpre; simpl.
  - rewrite bool_decide_eq_true_2 by done. f_equal. lia.
  - apply not_elem_of_cons in Hpre as [Hy Hpre].
    rewrite bool_decide_eq_false_2 by congruence.
    rewrite IH by done. f_equal. lia.
Qed.

Lemma index_first (x : str) (pre post : list str) :
  x ∉ pre → Py.index (pre ++ x :: post) x = Ok (length pre).
Proof. intros H. unfold Py.index. by rewrite index_from_first. Qed.

(** The text branch, once the two tokens are found. *)
Lemma fromstl_text_unfold (data : str) (i en : nat) :
  is_binary data = false →
  Py.index (tokens data) (lit "solid") = Ok i →
  Py.index (tokens data) (lit "facet") = Ok en →
  fromstl data =
    Ok (if decide ((i + 1)%nat = en) then lit "unknown"
        else Py.join (lit " ") (Py.slice (tokens data) (i + 1) en),
        Z.of_nat (Py.count (tokens data) (lit "facet")),
        _readtext (drop en (tokens data))).
Proof.
  intros Hb Hs Hf. unfold fromstl, is_binary, tokens in *.
  by rewrite Hb, Hs, Hf.
Qed.

(** C5, amended. For an input sent to the text branch, [fromstl] raises
    [ValueError("Not an STL file.")] exactly when the token list has no
    ["solid"] token or has no ["facet"] token; when it has both, the call
    returns. *)
Theorem fromstl_text_not_stl (data : str) :
  is_binary data = false →
  (fromstl data = Raise not_stl
   ↔ lit "solid" ∉ tokens data ∨ lit "facet" ∉ tokens data)
  ∧ (lit "solid" ∈ tokens data → lit "facet" ∈ tokens data →
     ∃ name nf reader, fromstl data = Ok (name, nf, reader)).
Proof.
  intros Hb.
  assert (Hboth : lit "solid" ∈ tokens data → lit "facet" ∈ tokens data →
                  ∃ name nf reader, fromstl data = Ok (name, nf, reader)).
  { intros Hs Hf. apply index_Ok_iff in Hs as [i Hs].
    apply index_Ok_iff in Hf as [en Hf].
    rewrite (fromstl_text_unfold data i en Hb Hs Hf). eauto. }
  split; [split|exact Hboth].
  - intros Hr.
    destruct (decide (lit "solid" ∈ tokens data)) as [Hs|Hs]; [|by left].
    destruct (decide (lit "facet" ∈ tokens data)) as [Hf|Hf]; [|by right].
    destruct (Hboth Hs Hf) as (name & nf & reader & Hok). congruence.
  - intros Hno. unfold fromstl, is_binary, tokens in *. rewrite Hb.
    destruct (Py.index _ (lit "solid")) as [i|e] eqn:Hs; [|done].
    destruct (Py.index _ (lit "facet")) as [en|e] eqn:Hf; [|done].
    destruct Hno as [Hno|Hno]; exfalso; apply Hno; apply index_Ok_iff; eauto.
Qed.

Lemma fromstl_text_not_stl_witness :
  fromstl (repeat " "%char 120 ++ lit "vertex") = Raise not_stl
  ∧ ∃ name nf reader,
      fromstl (lit ("solid cube " ++ Sample.triangle_text
                    ++ Sample.triangle_text ++ "endsolid cube"))
      = Ok (name, nf, reader).
Proof.
  split.
  - apply (proj1 (fromstl_text_not_stl (repeat " "%char 120 ++ lit "vertex")
                    ltac:(vm_compute; reflexivity))).
    left. intros H. apply (bool_decide_pack _) in H. vm_compute in H. exact H.
  - apply (proj2 (fromstl_text_not_stl
                    (lit ("solid cube " ++ Sample.triangle_text
                          ++ Sample.triangle_text ++ "endsolid cube"))
                    ltac:(vm_compute; reflexivity))).
    + apply index_Ok_iff. eexists. vm_compute. reflexivity.
    + apply index_Ok_iff. eexists. vm_compute. reflexivity.
Defined.

(** C5 fails as stated on a text file that has ["facet"] tokens but no
    ["solid"] token: the call raises although a ["facet"] token exists. *)
Lemma fromstl_text_not_stl_counterexample :
  is_binary (lit (Sample.triangle_text ++ Sample.triangle_text ++ "endsolid"))
  = false
  ∧ Py.count (tokens (lit (Sample.triangle_text ++ Sample.triangle_text
                           ++ "endsolid"))) (lit "facet") = 2%nat
  ∧ fromstl (lit (Sample.triangle_text ++ Sample.triangle_text ++ "endsolid"))
    = Raise not_stl.
Proof. vm_compute. repeat split. Qed.

(** The name of a text file whose first ["solid"] comes before its first
    ["facet"]: the tokens between the two, joined with single spaces, and
    ["unknown"] when there is none. *)
Lemma fromstl_text_name_between (data : str) (pre mid post : list str) :
  is_binary data = false →
  tokens data = pre ++ lit "solid" :: mid ++ lit "facet" :: post →
  lit "solid" ∉ pre →
  lit "facet" ∉ pre ++ lit "solid" :: mid →
  fromstl data =
    Ok (match mid with [] => lit "unknown" | _ => Py.join (lit " ") mid end,
        Z.of_nat (Py.count (tokens data) (lit "facet")),
        _readtext (lit "facet" :: post)).
Proof.
  intros Hb Htok Hs Hf.
  assert (Hi : Py.index (tokens data) (lit "solid") = Ok (length pre))
    by (rewrite Htok; by apply index_first).
  assert (He : Py.index (tokens data) (lit "facet")
               = Ok (length pre + 1 + length mid)%nat).
  { rewrite Htok.
    replace (pre ++ lit "solid" :: mid ++ lit "facet" :: post)
      with ((pre ++ lit "solid" :: mid) ++ lit "facet" :: post)
      by (by rewrite <- app_assoc).
    rewrite index_first by done. f_equal. rewrite length_app. simpl. lia. }
  rewrite (fromstl_text_unfold data _ _ Hb Hi He). f_equal.
  assert (Hdrop : drop (length pre + 1) (tokens data)
                  = mid ++ lit "facet" :: post).
  { rewrite Htok, drop_app_ge by lia.
    replace (length pre + 1 - length pre)%nat with 1%nat by lia. done. }
  f_equal; [f_equal|].
  - unfold Py.slice. rewrite Hdrop.
    replace (length pre + 1 + length mid - (length pre + 1))%nat
      with (length mid) by lia.
    rewrite take_app_length.
    destruct mid as [|m mid].
    + rewrite decide_True by (simpl; lia). done.
    + rewrite decide_False by (simpl; lia). done.
  - replace (length pre + 1 + length mid)%nat
      with ((length pre + 1) + length mid)%nat by lia.
    by rewrite <- drop_drop, Hdrop, drop_app_length.
Qed.

(** C8. When the first ["solid"] token comes after the first ["facet"]
    token, no token follows it before that ["facet"], and the name
    [fromstl] returns is the empty string where the claim has ["unknown"].
    In a file of two solids whose first header is written [Solid],
    [Py.index] finds ["solid"] at position 25 and ["facet"] at position 2,
    and the slice [items[26:2]] is empty. The branch tests [sn == en] where
    the binary branch tests the length of the name. *)
Theorem fromstl_text_name_empty :
  is_binary Sample.two_solids = false
  ∧ Py.index (tokens Sample.two_solids) (lit "solid") = Ok 25%nat
  ∧ Py.index (tokens Sample.two_solids) (lit "facet") = Ok 2%nat
  ∧ ∃ reader, fromstl Sample.two_solids = Ok ([], 2%Z, reader).
Proof.
  split; [vm_compute; reflexivity|]. split; [vm_compute; reflexivity|].
  split; [vm_compute; reflexivity|]. eexists. vm_compute. reflexivity.
Qed.

(** ** The name of a binary file *)

Lemma replace_from_skip (old new : str) (k : nat) (s : str) :
  Py.replace_from old new k s = Py.replace_from old new 0 (drop k s).
Proof.
  revert k. induction s as [|c s IH]; intros [|k]; try done.
  simpl Py.replace_from at 1. rewrite IH. done.
Qed.

Lemma replace_from_cons (old new : str) (c : ascii) (s : str) :
  Py.replace_from old new 0 (c :: s) =
    if Py.startswith old (c :: s)
    then new ++ Py.replace_from old new (length old - 1) s
    else c :: Py.replace_from old new 0 s.
Proof. reflexivity. Qed.

Lemma replace_absent (old new : str) (s : str) (i : nat) :
  Py.find_at old s i = None → Py.replace_from old new 0 s = s.
Proof.
  revert i. induction s as [|c s IH]; intros i; [done|].
  rewrite replace_from_cons. cbn [Py.find_at].
  destruct (Py.startswith old (c :: s)); [done|].
  intros H. f_equal. by eapply IH.
Qed.

Lemma find_absent (s sub : str) :
  Py.find s sub 0 = (-1)%Z → Py.find_at sub s 0 = None.
Proof.
  unfold Py.find. rewrite decide_False by lia. rewrite drop_0.
  destruct (Py.find_at sub s 0); [lia|done].
Qed.

(** Where ["solid "] occurs in the name field at most as its prefix, deleting
    every occurrence is deleting that prefix. *)
Lemma replace_solid_prefix (field : str) :
  Py.find (strip_prefix (lit "solid ") field) (lit "solid ") 0 = (-1)%Z →
  Py.replace field (lit "solid ") (lit "") = strip_prefix (lit "solid ") field.
Proof.
  unfold strip_prefix, Py.replace. intros H. apply find_absent in H.
  destruct (Py.startswith (lit "solid ") field) eqn:Hp.
  - destruct field as [|c field]; [done|].
    rewrite replace_from_cons, Hp, replace_from_skip.
    by eapply replace_absent.
  - by eapply replace_absent.
Qed.

(** C7, amended. For an input the binary branch accepts, the name is made
    of the 80-byte name field by deleting every occurrence of ["solid "],
    wherever it stands, and then trimming NUL, space, tab, line feed and
    carriage return from both ends; it is ["unknown"] when nothing is left
    and the trimmed string otherwise. Where ["solid "] occurs at most as the
    prefix of the field this is the name the specification describes. *)
Theorem fromstl_binary_name (data name : str) (nf : Z) (reader : gen item) :
  is_binary data = true →
  fromstl data = Ok (name, nf, reader) →
  let field := take 80 data in
  let trimmed := Py.strip (Py.replace field (lit "solid ") (lit "")) name_padding in
  (trimmed = [] → name = lit "unknown")
  ∧ (trimmed ≠ [] → name = trimmed)
  ∧ (Py.find (strip_prefix (lit "solid ") field) (lit "solid ") 0 = (-1)%Z →
     name = spec_binary_name field).
Proof.
  intros Hb Hok.
  assert (Hlen : (84 ≤ length data)%nat).
  { destruct (decide (84 ≤ length data)%nat) as [|Hn]; [done|].
    pose proof (fromstl_too_short data ltac:(lia)). congruence. }
  rewrite (fromstl_binary_unfold data Hb Hlen) in Hok.
  case_bool_decide; [done|]. injection Hok as <- _ _. cbv zeta.
  split; [|split].
  - intros Ht. unfold binary_name. rewrite Ht. done.
  - intros Ht. unfold binary_name. rewrite decide_False; [done|].
    by destruct (Py.strip _ _).
  - intros Hfind. unfold binary_name, spec_binary_name.
    by rewrite replace_solid_prefix.
Qed.

Lemma fromstl_binary_name_witness :
  fromstl (Sample.header "solid cube" 0)
  = Ok (lit "cube", 0%Z, ([], StopIteration))
  ∧ lit "cube" = spec_binary_name (take 80 (Sample.header "solid cube" 0))
  ∧ fromstl (repeat " "%char 80 ++ Sample.le32 0)
    = Ok (lit "unknown", 0%Z, ([], StopIteration))
  ∧ lit "unknown"
    = spec_binary_name (take 80 (repeat " "%char 80 ++ Sample.le32 0)).
Proof.
  assert (H1 : fromstl (Sample.header "solid cube" 0)
               = Ok (lit "cube", 0%Z, ([], StopIteration)))
    by (vm_compute; reflexivity).
  assert (H2 : fromstl (repeat " "%char 80 ++ Sample.le32 0)
               = Ok (lit "unknown", 0%Z, ([], StopIteration)))
    by (vm_compute; reflexivity).
  assert (B1 : is_binary (Sample.header "solid cube" 0) = true)
    by (vm_compute; reflexivity).
  assert (B2 : is_binary (repeat " "%char 80 ++ Sample.le32 0) = true)
    by (vm_compute; reflexivity).
  split; [exact H1|]. split; [|split; [exact H2|]].
  - apply (fromstl_binary_name _ _ _ _ B1 H1). vm_compute. reflexivity.
  - apply (fromstl_binary_name _ _ _ _ B2 H2). vm_compute. reflexivity.
Defined.

(** C7 fails as stated on a name field in which ["solid "] stands after
    the first character: of the field ["my solid cube"] the code makes
    ["my cube"], where removing a leading ["solid "] leaves
    ["my solid cube"]. *)
Lemma fromstl_binary_name_counterexample :
  is_binary (Sample.header "my solid cube" 0) = true
  ∧ fromstl (Sample.header "my solid cube" 0)
    = Ok (lit "my cube", 0%Z, ([], StopIteration))
  ∧ spec_binary_name (take 80 (Sample.header "my solid cube" 0))
    = lit "my solid cube".
Proof. vm_compute. repeat split. Qed.

(** * Further properties *)

(** ** Classification of the input *)

Lemma startswith_take (p s : str) :
  Py.startswith p s = true ↔ take (length p) s = p.
Proof.
  revert s. induction p as [|c p IH]; intros s; simpl.
  - by rewrite take_0.
  - destruct s as [|d s]; simpl; [split; discriminate|].
    rewrite andb_true_iff, bool_decide_eq_true, IH.
    split; [intros [-> ->]; done | intros [= -> ->]; done].
Qed.

Lemma find_at_Some (sub s : str) (i j : nat) :
  Py.find_at sub s i = Some j →
  ∃ k, j = (i + k)%nat ∧ Py.startswith sub (drop k s) = true.
Proof.
  revert i. induction s as [|c s IH]; intros i; simpl.
  - destruct (Py.startswith sub []) eqn:Hs; [|done].
    intros [= <-]. exists 0%nat. split; [lia|done].
  - destruct (Py.startswith sub (c :: s)) eqn:Hs.
    + intros [= <-]. exists 0%nat. split; [lia|done].
    + intros H. apply IH in H as (k & -> & Hk).
      exists (S k). split; [lia|done].
Qed.

Lemma find_at_None (sub s : str) (i k : nat) :
  Py.find_at sub s i = None → Py.startswith sub (drop k s) = false.
Proof.
  revert i k. induction s as [|c s IH]; intros i k; simpl.
  - destruct (Py.startswith sub []) eqn:Hs; [done|].
    intros _. by rewrite drop_nil.
  - destruct (Py.startswith sub (c :: s)) eqn:Hs; [done|].
    intros H. destruct k as [|k]; [done|]. simpl. by eapply IH.
Qed.

(** X1. An input goes to the text branch exactly when ["vertex"] occurs in it
    at some offset from 120 on. *)
Theorem text_iff_vertex_past_120 (data : str) :
  is_binary data = false
  ↔ ∃ i, (120 ≤ i)%nat ∧ Py.slice data i (i + 6) = lit "vertex".
Proof.
  unfold is_binary, Py.find, Py.slice.
  split.
  - case_decide as Hlen; [done|].
    destruct (Py.find_at (lit "vertex") (drop 120 data) 120) as [j|] eqn:Hf;
      [|done].
    intros _. apply find_at_Some in Hf as (k & -> & Hk).
    exists (120 + k)%nat. split; [lia|].
    rewrite drop_drop in Hk. apply startswith_take in Hk.
    replace (120 + k + 6 - (120 + k))%nat with 6%nat by lia. exact Hk.
  - intros (i & Hi & Hs).
    replace (i + 6 - i)%nat with 6%nat in Hs by lia.
    assert (Hl : (i + 6 ≤ length data)%nat).
    { apply (f_equal length) in Hs. rewrite length_take, length_drop in Hs.
      change (length (lit "vertex")) with 6%nat in Hs. lia. }
    rewrite decide_False by lia.
    destruct (Py.find_at (lit "vertex") (drop 120 data) 120) as [j|] eqn:Hf.
    + apply Z.eqb_neq. lia.
    + apply (find_at_None _ _ _ (i - 120)) in Hf.
      rewrite drop_drop in Hf. replace (120 + (i - 120))%nat with i in Hf by lia.
      apply (proj2 (startswith_take (lit "vertex") (drop i data))) in Hs.
      congruence.
Qed.

(** ** The blocks of a binary file *)

Lemma range0_50_succ (L : nat) :
  (0 < L)%nat →
  Py.range0 L 50 = 0%nat :: map (λ n, n + 50)%nat (Py.range0 (L - 50) 50).
Proof.
  intros HL. unfold Py.range0.
  assert (Hn : ((L + 50 - 1) / 50 = S ((L - 50 + 50 - 1) / 50))%nat).
  { destruct (decide (50 ≤ L)%nat) as [H50|H50].
    - replace (L + 50 - 1)%nat with ((L - 50 + 50 - 1) + 1 * 50)%nat by lia.
      rewrite Nat.div_add by lia. lia.
    - replace (L - 50 + 50 - 1)%nat with 49%nat by lia.
      rewrite (Nat.div_small 49 50) by lia.
      symmetry. apply (Nat.div_unique _ _ _ (L - 1)); lia. }
  rewrite Hn. cbn [seq map]. f_equal.
  rewrite <- seq_shift, !map_map. apply map_ext. intros k. lia.
Qed.

Lemma blocks_nil : blocks [] = [].
Proof. reflexivity. Qed.

Lemma blocks_cons (d : str) :
  d ≠ [] → blocks d = take 50 d :: blocks (drop 50 d).
Proof.
  intros Hd. unfold blocks.
  rewrite range0_50_succ by (destruct d; [done | simpl; lia]).
  cbn [map]. f_equal.
  rewrite length_drop, map_map. apply map_ext. intros n.
  unfold Py.slice. rewrite drop_drop. f_equal; [lia|f_equal; lia].
Qed.

(** The blocks a binary file is cut into hold every byte after the header
    once, in order; every block is 50 bytes long except the last, which is
    shorter when the bytes are not a multiple of 50. *)
Lemma blocks_partition (d : str) :
  concat (blocks d) = d
  ∧ Forall (λ i, (0 < length i ≤ 50)%nat) (blocks d)
  ∧ (∀ k i, blocks d !! k = Some i → (S k < length (blocks d))%nat →
            length i = 50%nat).
Proof.
  induction d as [d IH] using (induction_ltof1 _ length). unfold ltof in IH.
  destruct (decide (d = [])) as [->|Hd]; [by rewrite blocks_nil|].
  assert (Hlen : (0 < length d)%nat) by (destruct d; [done|simpl; lia]).
  rewrite blocks_cons by done.
  destruct (IH (drop 50 d)) as (IH1 & IH2 & IH3);
    [rewrite length_drop; lia|].
  split; [|split].
  - simpl. by rewrite IH1, take_drop.
  - constructor; [rewrite length_take; lia|done].
  - intros [|k] i; simpl.
    + intros [= <-] Hk. rewrite length_take.
      destruct (blocks (drop 50 d)) as [|j rest] eqn:Hb; [simpl in Hk; lia|].
      assert (Hj : drop 50 d ≠ []) by (intros Hn; rewrite Hn, blocks_nil in Hb; done).
      assert (0 < length (drop 50 d))%nat
        by (destruct (drop 50 d); [done|simpl; lia]).
      rewrite length_drop in *. lia.
    + intros Hi Hk. apply (IH3 k i Hi). lia.
Qed.

(** X3. The generator of an accepted binary file runs over the blocks of the
    bytes after the 84-byte header: no byte is lost or read twice. *)
Theorem fromstl_binary_blocks (data name : str) (nf : Z) (reader : gen item) :
  is_binary data = true →
  fromstl data = Ok (name, nf, reader) →
  ∃ items,
    reader = _readbinary items
    ∧ concat items = drop 84 data
    ∧ Forall (λ i, (0 < length i ≤ 50)%nat) items
    ∧ (∀ k i, items !! k = Some i → (S k < length items)%nat →
              length i = 50%nat)
    ∧ nf = (Z.of_nat (length (drop 84 data)) / 50)%Z.
Proof.
  intros Hb Hok.
  assert (Hlen : (84 ≤ length data)%nat).
  { destruct (decide (84 ≤ length data)%nat) as [|Hn]; [done|].
    pose proof (fromstl_too_short data ltac:(lia)). congruence. }
  rewrite (fromstl_binary_unfold data Hb Hlen) in Hok.
  case_bool_decide as Hnf; [done|]. injection Hok as _ <- <-.
  exists (blocks (drop 84 data)).
  destruct (blocks_partition (drop 84 data)) as (H1 & H2 & H3).
  split; [|split; [done|split; [done|split; [done|]]]].
  - unfold blocks. by rewrite length_drop.
  - rewrite length_drop. exact Hnf.
Qed.

Lemma fromstl_binary_blocks_witness :
  ∃ items,
    _readbinary [Sample.triangle; repeat Sample.NUL 25] = _readbinary items
    ∧ concat items = drop 84 trailing_file
    ∧ Forall (λ i, (0 < length i ≤ 50)%nat) items
    ∧ (∀ k i, items !! k = Some i → (S k < length items)%nat →
              length i = 50%nat)
    ∧ 1%Z = (Z.of_nat (length (drop 84 trailing_file)) / 50)%Z.
Proof.
  assert (Hb : is_binary trailing_file = true) by (vm_compute; reflexivity).
  assert (Hok : fromstl trailing_file
                = Ok (lit "unknown", 1%Z,
                      _readbinary [Sample.triangle; repeat Sample.NUL 25]))
    by (vm_compute; reflexivity).
  exact (fromstl_binary_blocks _ _ _ _ Hb Hok).
Defined.

(** ** Magnitudes of binary64 values

    The facts below follow the bit-level specification of the float
    operations: rounding a value of at most [2^k] gives a value of at most
    [2^(k+1)], an infinity or a NaN. *)

Section Magnitude.

Local Open Scope Z_scope.

Lemma fexp_eq (t : Z) : fexp prec emax t = Z.max (t - 53) (-1074).
Proof. reflexivity. Qed.

Lemma digits2_pos_gt (m : positive) : Z.pos m < 2 ^ Z.pos (digits2_pos m).
Proof.
  induction m as [m IH|m IH|]; simpl digits2_pos.
  - rewrite Pos2Z.inj_succ, Z.pow_succ_r by lia. lia.
  - rewrite Pos2Z.inj_succ, Z.pow_succ_r by lia. lia.
  - reflexivity.
Qed.

Lemma digits2_pos_le (m : positive) : 2 ^ (Z.pos (digits2_pos m) - 1) <= Z.pos m.
Proof.
  induction m as [m IH|m IH|]; simpl digits2_pos.
  - rewrite Pos2Z.inj_succ.
    replace (Z.succ (Z.pos (digits2_pos m)) - 1)
      with (Z.succ (Z.pos (digits2_pos m) - 1)) by lia.
    rewrite Z.pow_succ_r by lia. lia.
  - rewrite Pos2Z.inj_succ.
    replace (Z.succ (Z.pos (digits2_pos m)) - 1)
      with (Z.succ (Z.pos (digits2_pos m) - 1)) by lia.
    rewrite Z.pow_succ_r by lia. lia.
  - reflexivity.
Qed.

Lemma Zdigits2_bound (m j : Z) :
  0 <= m -> 0 <= j -> m <= 2 ^ j -> Zdigits2 m <= j + 1.
Proof.
  intros Hm Hj Hle. destruct m as [|p|p]; simpl; [lia| |lia].
  destruct (Z_le_gt_dec (Z.pos (digits2_pos p)) (j + 1)) as [|Hgt]; [done|].
  pose proof (digits2_pos_le p) as Hd.
  assert (2 ^ (j + 1) <= 2 ^ (Z.pos (digits2_pos p) - 1))
    by (apply Z.pow_le_mono_r; lia).
  rewrite Z.pow_add_r in * by lia. change (2 ^ 1) with 2 in *. lia.
Qed.

Lemma iter_pos_inv {A : Type} (f : A -> A) (P : Z -> A -> Prop) :
  (forall j x, 0 <= j -> P j x -> P (j + 1) (f x)) ->
  forall p j x, 0 <= j -> P j x -> P (j + Z.pos p) (SpecFloat.iter_pos f p x).
Proof.
  intros Hf. induction p as [p IH|p IH|]; intros j x Hj HP; simpl.
  - replace (j + Z.pos p~1) with (j + 1 + Z.pos p + Z.pos p) by lia.
    apply IH; [lia|]. apply IH; [lia|]. by apply Hf.
  - replace (j + Z.pos p~0) with (j + Z.pos p + Z.pos p) by lia.
    apply IH; [lia|]. by apply IH.
  - by apply Hf.
Qed.

Lemma shr_1_bound (r : shr_record) :
  0 <= shr_m r -> 0 <= shr_m (shr_1 r) /\ shr_m (shr_1 r) * 2 <= shr_m r.
Proof.
  destruct r as [m r s]. simpl. intros Hm.
  destruct m as [|[p|p|]|p]; simpl; lia.
Qed.

Lemma shr_bound (mrs mrs' : shr_record) (e n e' : Z) :
  shr mrs e n = (mrs', e') ->
  0 <= shr_m mrs ->
  0 <= shr_m mrs' /\ e <= e' /\ shr_m mrs' * 2 ^ (e' - e) <= shr_m mrs
  /\ (e' = e \/ e' = e + n).
Proof.
  unfold shr. intros H Hm. destruct n as [|p|p].
  - injection H as <- <-. rewrite Z.sub_diag. simpl. lia.
  - injection H as <- <-.
    assert (Hstep : forall j x, 0 <= j ->
              0 <= shr_m x /\ shr_m x * 2 ^ j <= shr_m mrs ->
              0 <= shr_m (shr_1 x) /\ shr_m (shr_1 x) * 2 ^ (j + 1) <= shr_m mrs).
    { intros j x Hj [H1 H2]. destruct (shr_1_bound x H1) as [H3 H4].
      split; [done|]. rewrite Z.pow_add_r by lia. change (2 ^ 1) with 2.
      assert (0 < 2 ^ j) by (apply Z.pow_pos_nonneg; lia). nia. }
    destruct (iter_pos_inv shr_1
                (fun j r => 0 <= shr_m r /\ shr_m r * 2 ^ j <= shr_m mrs)
                Hstep p 0 mrs) as (H1 & H2); [lia|simpl; lia|].
    replace (e + Z.pos p - e) with (0 + Z.pos p) by lia. lia.
  - injection H as <- <-. rewrite Z.sub_diag. simpl. lia.
Qed.

Lemma shr_fexp_bound (m e : Z) (l : location) (mrs' : shr_record) (e' : Z) :
  shr_fexp prec emax m e l = (mrs', e') ->
  0 <= m ->
  0 <= shr_m mrs' /\ e <= e' /\ shr_m mrs' * 2 ^ (e' - e) <= m
  /\ (e' = e \/ e' = fexp prec emax (Zdigits2 m + e)).
Proof.
  unfold shr_fexp. intros H Hm.
  assert (Hr : shr_m (shr_record_of_loc m l) = m) by (by destruct l as [|[]]).
  apply shr_bound in H; rewrite Hr in *; [|done].
  destruct H as (H1 & H2 & H3 & [H4|H4]); repeat split; try done; [by left|].
  right. lia.
Qed.

Lemma pow2_cancel (m1 e e' K : Z) :
  0 <= m1 -> e <= e' -> m1 * 2 ^ (e' - e) <= 2 ^ (K - e) -> m1 <= 2 ^ (K - e').
Proof.
  intros Hm He H.
  assert (Hp : 0 < 2 ^ (e' - e)) by (apply Z.pow_pos_nonneg; lia).
  destruct (Z_le_gt_dec e' K) as [HK|HK].
  - replace (K - e) with ((K - e') + (e' - e)) in H by lia.
    rewrite Z.pow_add_r in H by lia. nia.
  - rewrite (Z.pow_neg_r 2 (K - e')) by lia.
    destruct (Z_le_gt_dec e K) as [HK'|HK'].
    + assert (2 ^ (K - e) < 2 ^ (e' - e)) by (apply Z.pow_lt_mono_r; lia). nia.
    + rewrite (Z.pow_neg_r 2 (K - e)) in H by lia. nia.
Qed.

Lemma round_nearest_even_bound (m : Z) (l : location) :
  m <= round_nearest_even m l <= m + 1.
Proof. destruct l as [|[]]; simpl; [lia| |lia|lia]. destruct (Z.even m); lia. Qed.

(** Where the two shifts of [binary_round_aux] leave the mantissa and the
    exponent. *)
Lemma binary_round_aux_steps (M E K : Z) (l : location) :
  0 < M -> M <= 2 ^ (K - E) -> -1074 <= K ->
  exists m3 e'',
    (let '(mrs', e') := shr_fexp prec emax M E l in
     let '(mrs'', e'') :=
       shr_fexp prec emax
         (round_nearest_even (shr_m mrs') (loc_of_shr_record mrs')) e' loc_Exact in
     (shr_m mrs'', e'')) = (m3, e'')
    /\ 0 <= m3 /\ m3 <= 2 ^ (K + 1 - e'')
    /\ e'' <= Z.max E (Z.max (K + 2 - 53) (-1074)).
Proof.
  intros HM HK Hmin.
  assert (HE : E <= K).
  { destruct (Z_le_gt_dec E K); [done|]. rewrite Z.pow_neg_r in HK by lia. lia. }
  destruct (shr_fexp prec emax M E l) as [mrs' e'] eqn:H1.
  apply shr_fexp_bound in H1 as (Hm1 & He1 & Hb1 & Hc1); [|lia].
  assert (Hd : Zdigits2 M + E <= K + 1).
  { pose proof (Zdigits2_bound M (K - E)). lia. }
  assert (He' : e' <= K).
  { destruct Hc1 as [->| ->]; [done|]. rewrite fexp_eq. lia. }
  assert (Hm1' : shr_m mrs' <= 2 ^ (K - e')).
  { apply (pow2_cancel _ E); try done. lia. }
  set (m2 := round_nearest_even (shr_m mrs') (loc_of_shr_record mrs')).
  pose proof (round_nearest_even_bound (shr_m mrs') (loc_of_shr_record mrs')) as Hr.
  fold m2 in Hr.
  assert (Hm2 : m2 <= 2 ^ (K + 1 - e')).
  { replace (K + 1 - e') with (K - e' + 1) by lia.
    rewrite Z.pow_add_r by lia. change (2 ^ 1) with 2.
    assert (0 < 2 ^ (K - e')) by (apply Z.pow_pos_nonneg; lia). lia. }
  destruct (shr_fexp prec emax m2 e' loc_Exact) as [mrs'' e''] eqn:H2.
  apply shr_fexp_bound in H2 as (Hm3 & He2 & Hb2 & Hc2); [|lia].
  exists (shr_m mrs''), e''. split; [done|]. split; [done|]. split.
  - apply (pow2_cancel _ e'); try done. lia.
  - assert (Hd2 : Zdigits2 m2 + e' <= K + 2).
    { pose proof (Zdigits2_bound m2 (K + 1 - e')). lia. }
    destruct Hc2 as [->| ->].
    + destruct Hc1 as [->| ->]; [lia|]. rewrite fexp_eq. lia.
    + rewrite fexp_eq. lia.
Qed.

Lemma mag_binary_round_aux (s : bool) (M E K : Z) (l : location) :
  0 < M -> M <= 2 ^ (K - E) -> -1074 <= K ->
  mag (K + 1) (binary_round_aux prec emax s M E l).
Proof.
  intros HM HK Hmin.
  destruct (binary_round_aux_steps M E K l HM HK Hmin)
    as (m3 & e'' & Heq & H0 & Hb & _).
  unfold binary_round_aux.
  destruct (shr_fexp prec emax M E l) as [mrs' e'].
  destruct (shr_fexp prec emax _ e' loc_Exact) as [mrs'' e2].
  injection Heq as -> ->.
  destruct m3 as [|p|p]; simpl; [done| |done].
  destruct (Z.leb e'' (emax - prec)); simpl; done.
Qed.

(** No overflow: the rounded value is finite when [2^(K+2)] is in range. *)
Lemma binary_round_aux_finite (s : bool) (M E K : Z) (l : location) :
  0 < M -> M <= 2 ^ (K - E) -> -1074 <= K -> K + 2 <= 1024 -> E <= 971 ->
  forall s', binary_round_aux prec emax s M E l <> S754_infinity s'.
Proof.
  intros HM HK Hmin Hmax HE s'.
  destruct (binary_round_aux_steps M E K l HM HK Hmin)
    as (m3 & e'' & Heq & H0 & Hb & He).
  unfold binary_round_aux.
  destruct (shr_fexp prec emax M E l) as [mrs' e'].
  destruct (shr_fexp prec emax _ e' loc_Exact) as [mrs'' e2].
  injection Heq as -> ->.
  destruct m3 as [|p|p]; [done| |done].
  change (emax - prec) with 971.
  destruct (Z.leb_spec e'' 971); [done|lia].
Qed.

End Magnitude.

Section MagnitudeOps.

Local Open Scope Z_scope.

Lemma mag_mono (k k' : Z) (x : spec_float) : k <= k' -> mag k x -> mag k' x.
Proof.
  intros Hk. destruct x as [| | |s m e]; simpl; try done. intros H.
  destruct (Z_le_gt_dec e k).
  - etransitivity; [exact H|]. apply Z.pow_le_mono_r; lia.
  - rewrite Z.pow_neg_r in H by lia. lia.
Qed.

Lemma iter_xO_pow (m d : positive) :
  Z.pos (Pos.iter xO m d) = Z.pos m * 2 ^ Z.pos d.
Proof.
  induction d as [|d IH] using Pos.peano_ind.
  - simpl. lia.
  - rewrite Pos.iter_succ, Pos2Z.inj_xO, IH, Pos2Z.inj_succ, Z.pow_succ_r by lia.
    lia.
Qed.

Lemma shl_align_bound (mx : positive) (ex ex' K : Z) (mz : positive) (ez : Z) :
  shl_align mx ex ex' = (mz, ez) ->
  Z.pos mx <= 2 ^ (K - ex) ->
  Z.pos mz <= 2 ^ (K - ez) /\ ez <= ex.
Proof.
  unfold shl_align. intros H Hb.
  assert (Hex : ex <= K).
  { destruct (Z_le_gt_dec ex K); [done|]. rewrite Z.pow_neg_r in Hb by lia. lia. }
  destruct (ex' - ex) as [|d|d] eqn:Hd; injection H as <- <-; try (split; [done|lia]).
  split; [|lia]. rewrite iter_xO_pow.
  replace (K - ex') with ((K - ex) + Z.pos d) by lia.
  rewrite Z.pow_add_r by lia.
  assert (0 < 2 ^ Z.pos d) by (apply Z.pow_pos_nonneg; lia). nia.
Qed.

Lemma shl_align_fst (mx : positive) (ex ez : Z) :
  ez <= ex -> Z.pos (fst (shl_align mx ex ez)) = Z.pos mx * 2 ^ (ex - ez).
Proof.
  unfold shl_align. intros H.
  destruct (ez - ex) as [|d|d] eqn:Hd; simpl.
  - replace (ex - ez) with 0 by lia. simpl. lia.
  - lia.
  - rewrite iter_xO_pow. f_equal. f_equal. lia.
Qed.

Lemma mag_binary_round (s : bool) (m : positive) (e K : Z) :
  Z.pos m <= 2 ^ (K - e) -> -1074 <= K ->
  mag (K + 1) (binary_round prec emax s m e).
Proof.
  intros Hb HK. unfold binary_round.
  destruct (shl_align m e _) as [mz ez] eqn:Hs.
  destruct (shl_align_bound _ _ _ K _ _ Hs Hb) as [Hz _].
  apply mag_binary_round_aux; [lia|done|done].
Qed.

Lemma mag_binary_normalize (M e K : Z) (sz : bool) :
  Z.abs M <= 2 ^ (K - e) -> -1074 <= K ->
  mag (K + 1) (binary_normalize prec emax M e sz).
Proof.
  intros Hb HK. destruct M as [|p|p]; simpl; [done| |];
    apply mag_binary_round; simpl in Hb; lia.
Qed.

Lemma mag_SFopp (k : Z) (x : spec_float) : mag k x -> mag k (SFopp x).
Proof. by destruct x. Qed.

Lemma mag_SFabs (k : Z) (x : spec_float) : mag k x -> mag k (SFabs x).
Proof. by destruct x. Qed.

Lemma mag_aligned_sum (k : Z) (sx sy : bool) (mx my : positive) (ex ey : Z) :
  Z.pos mx <= 2 ^ (k - ex) -> Z.pos my <= 2 ^ (k - ey) ->
  let ez := Z.min ex ey in
  Z.abs (cond_Zopp sx (Z.pos (fst (shl_align mx ex ez))))
  + Z.abs (cond_Zopp sy (Z.pos (fst (shl_align my ey ez))))
  <= 2 ^ (k + 1 - ez).
Proof.
  intros Hx Hy ez.
  assert (Hex : ex <= k).
  { destruct (Z_le_gt_dec ex k); [done|]. rewrite Z.pow_neg_r in Hx by lia. lia. }
  assert (Hey : ey <= k).
  { destruct (Z_le_gt_dec ey k); [done|]. rewrite Z.pow_neg_r in Hy by lia. lia. }
  rewrite !shl_align_fst by (subst ez; lia).
  assert (Hax : forall (b : bool) z, 0 <= z -> Z.abs (cond_Zopp b z) = z)
    by (intros [] z Hz; simpl; lia).
  assert (0 < 2 ^ (ex - ez)) by (apply Z.pow_pos_nonneg; subst ez; lia).
  assert (0 < 2 ^ (ey - ez)) by (apply Z.pow_pos_nonneg; subst ez; lia).
  rewrite !Hax by nia.
  replace (k + 1 - ez) with (k - ez + 1) by lia.
  rewrite Z.pow_add_r by (subst ez; lia). change (2 ^ 1) with 2.
  assert (Z.pos mx * 2 ^ (ex - ez) <= 2 ^ (k - ez)).
  { replace (k - ez) with ((k - ex) + (ex - ez)) by lia.
    rewrite Z.pow_add_r by (subst ez; lia). nia. }
  assert (Z.pos my * 2 ^ (ey - ez) <= 2 ^ (k - ez)).
  { replace (k - ez) with ((k - ey) + (ey - ez)) by lia.
    rewrite Z.pow_add_r by (subst ez; lia). nia. }
  lia.
Qed.

Lemma SFsub_finite (sx sy : bool) (mx my : positive) (ex ey : Z) :
  SFsub prec emax (S754_finite sx mx ex) (S754_finite sy my ey) =
    binary_normalize prec emax
      (cond_Zopp sx (Z.pos (fst (shl_align mx ex (Z.min ex ey))))
       - cond_Zopp sy (Z.pos (fst (shl_align my ey (Z.min ex ey)))))
      (Z.min ex ey) false.
Proof. reflexivity. Qed.

Lemma mag_SFsub (k : Z) (x y : spec_float) :
  -1074 <= k -> mag k x -> mag k y -> mag (k + 2) (SFsub prec emax x y).
Proof.
  intros Hk Hx Hy.
  destruct x as [sx|sx| |sx mx ex], y as [sy|sy| |sy my ey];
    try (rewrite SFsub_finite; replace (k + 2) with (k + 1 + 1) by lia;
         apply mag_binary_normalize; [|lia];
         pose proof (mag_aligned_sum k sx sy mx my ex ey Hx Hy) as Hs;
         cbv zeta in Hs; lia);
    try destruct sx; try destruct sy; simpl SFsub; try done;
    try (apply (mag_mono k); [lia|done]).
Qed.

Lemma mag_SFmul (k1 k2 : Z) (x y : spec_float) :
  -1074 <= k1 + k2 -> mag k1 x -> mag k2 y ->
  mag (k1 + k2 + 1) (SFmul prec emax x y).
Proof.
  intros Hk Hx Hy.
  destruct x as [sx|sx| |sx mx ex], y as [sy|sy| |sy my ey];
    simpl SFmul; try done.
  simpl in Hx, Hy.
  assert (Hex : ex <= k1).
  { destruct (Z_le_gt_dec ex k1); [done|]. rewrite Z.pow_neg_r in Hx by lia. lia. }
  assert (Hey : ey <= k2).
  { destruct (Z_le_gt_dec ey k2); [done|]. rewrite Z.pow_neg_r in Hy by lia. lia. }
  apply mag_binary_round_aux; [lia| |done].
  replace (k1 + k2 - (ex + ey)) with ((k1 - ex) + (k2 - ey)) by lia.
  rewrite Z.pow_add_r, Pos2Z.inj_mul by lia. nia.
Qed.

End MagnitudeOps.

Section MagnitudePrim.

Local Open Scope Z_scope.

Lemma Prim2SF_sub (a b : float) :
  Prim2SF (a - b) = SFsub prec emax (Prim2SF a) (Prim2SF b).
Proof. apply sub_spec. Qed.

Lemma mag_sub (k : Z) (a b : float) :
  -1074 <= k -> mag k (Prim2SF a) -> mag k (Prim2SF b) ->
  mag (k + 2) (Prim2SF (a - b)).
Proof. intros. rewrite sub_spec. by apply mag_SFsub. Qed.

Lemma mag_mul (k1 k2 : Z) (a b : float) :
  -1074 <= k1 + k2 -> mag k1 (Prim2SF a) -> mag k2 (Prim2SF b) ->
  mag (k1 + k2 + 1) (Prim2SF (a * b)).
Proof. intros. rewrite mul_spec. by apply mag_SFmul. Qed.

(** A single-precision value widened to binary64 is at most [2^130] in
    magnitude (a crude bound: the largest is just under [2^128]). *)
Lemma mag_SF2Prim_small (s : bool) (p : positive) (e : Z) :
  Z.pos p < 2 ^ 24 -> -149 <= e <= 104 ->
  mag 130 (Prim2SF (SF2Prim (S754_finite s p e))).
Proof.
  intros Hp He. unfold SF2Prim.
  assert (Hf : mag 130 (Prim2SF (Z.ldexp (of_uint63 (Uint63Axioms.of_Z (Z.pos p))) e))).
  { rewrite Z_ldexp_spec, of_uint63_spec, Uint63.of_Z_spec.
    rewrite Z.mod_small
      by (split; [lia|]; etransitivity; [exact Hp|]; reflexivity).
    assert (Hn : mag 25 (binary_normalize prec emax (Z.pos p) 0 false)).
    { apply (mag_binary_normalize _ _ 24); [|lia]. simpl Z.abs.
      change (24 - 0) with 24. lia. }
    destruct (binary_normalize prec emax (Z.pos p) 0 false)
      as [| | |sx mx ex]; simpl SFldexp; try done.
    apply (mag_mono (25 + e + 1)); [lia|].
    apply mag_binary_round; [|lia].
    simpl in Hn. replace (25 + e - (ex + e)) with (25 - ex) by lia. done. }
  destruct s; [|done]. rewrite opp_spec. by apply mag_SFopp.
Qed.

Lemma mag_of_bits32 (w : Z) : mag 130 (Prim2SF (PyFloat.of_bits32 w)).
Proof.
  unfold PyFloat.of_bits32.
  change (2 ^ 23 - 1) with (Z.ones 23). change 255 with (Z.ones 8).
  rewrite !Z.land_ones by lia.
  pose proof (Z.mod_pos_bound w (2 ^ 23) ltac:(lia)) as Hm.
  pose proof (Z.mod_pos_bound (Z.shiftr w 23) (2 ^ 8) ltac:(lia)) as He.
  set (m := w mod 2 ^ 23) in *. set (e := Z.shiftr w 23 mod 2 ^ 8) in *.
  change (2 ^ 8) with 256 in He. change (2 ^ 23) with 8388608 in *.
  destruct (Z.eqb_spec e (Z.ones 8)) as [He255|He255].
  { destruct (m =? 0); [destruct (Z.testbit w 31)|]; vm_compute; done. }
  change (Z.ones 8) with 255 in He255.
  destruct (Z.eqb_spec e 0) as [He0|He0].
  - destruct (Z.eqb_spec m 0) as [Hm0|Hm0].
    { destruct (Z.testbit w 31); vm_compute; done. }
    apply mag_SF2Prim_small; [|lia].
    rewrite Z2Pos.id by lia. change (2 ^ 24) with 16777216. lia.
  - apply mag_SF2Prim_small; [|lia].
    rewrite Z2Pos.id by lia. change (2 ^ 24) with 16777216. lia.
Qed.

End MagnitudePrim.

Section NoOverflow.

Local Open Scope Z_scope.

Lemma Prim2SF_infinity : Prim2SF infinity = S754_infinity false.
Proof. reflexivity. Qed.

Lemma Prim2SF_zero : Prim2SF zero = S754_zero false.
Proof. reflexivity. Qed.

Lemma is_nan_spec (x : float) :
  is_nan x = match Prim2SF x with S754_nan => true | _ => false end.
Proof.
  unfold is_nan. rewrite FloatAxioms.eqb_spec.
  pose proof (Prim2SF_valid x) as Hv.
  destruct (Prim2SF x) as [[]|[]| |[] m e]; try reflexivity;
    unfold SFeqb, SFcompare; rewrite Z.compare_refl, Pos.compare_cont_refl;
    reflexivity.
Qed.

Lemma is_infinity_spec (x : float) :
  is_infinity x = match Prim2SF x with S754_infinity _ => true | _ => false end.
Proof.
  unfold is_infinity. rewrite FloatAxioms.eqb_spec, abs_spec, Prim2SF_infinity.
  by destruct (Prim2SF x) as [[]|[]| |[] m e].
Qed.

Lemma eqb_zero_spec (x : float) :
  (x =? 0)%float = match Prim2SF x with S754_zero _ => true | _ => false end.
Proof.
  rewrite FloatAxioms.eqb_spec. change (Prim2SF 0) with (S754_zero false).
  by destruct (Prim2SF x) as [[]|[]| |[] m e].
Qed.

(** [x ** 2] does not overflow for a base of at most [2^485]. *)
Lemma pow_2_no_overflow (x : float) :
  mag 485 (Prim2SF x) -> exists y, PyFloat.pow_2 x = Ok y.
Proof.
  intros Hx. unfold PyFloat.pow_2.
  destruct (is_nan x) eqn:Hn; [eauto|].
  destruct (is_infinity x) eqn:Hi; [eauto|].
  destruct (x =? 0)%float eqn:Hz; [eauto|].
  destruct (abs x =? 1)%float; [eauto|].
  rewrite is_nan_spec in Hn. rewrite is_infinity_spec in Hi.
  rewrite eqb_zero_spec in Hz.
  rewrite is_infinity_spec, mul_spec, abs_spec.
  destruct (Prim2SF x) as [s|s| |s m e]; try done.
  simpl in Hx.
  assert (He : e <= 485).
  { destruct (Z_le_gt_dec e 485); [done|]. rewrite Z.pow_neg_r in Hx by lia. lia. }
  pose proof (binary_round_aux_finite false (Z.pos (m * m)) (e + e) 970 loc_Exact)
    as Hfin.
  simpl SFabs. unfold SF64mul, SFmul. simpl xorb.
  destruct (binary_round_aux prec emax false (Z.pos (m * m)) (e + e) loc_Exact)
    as [| s'| |] eqn:Hr; eauto.
  exfalso. apply (Hfin ltac:(lia)) with (s' := s'); try lia; [|done].
  replace (970 - (e + e)) with ((485 - e) + (485 - e)) by lia.
  rewrite Z.pow_add_r, Pos2Z.inj_mul by lia. nia.
Qed.

End NoOverflow.

(** ** The binary generator never stops on a whole record *)

Lemma mag_cross_component (k : Z) (p q r s : float) :
  (0 <= k)%Z ->
  mag k (Prim2SF p) -> mag k (Prim2SF q) ->
  mag k (Prim2SF r) -> mag k (Prim2SF s) ->
  mag (k + k + 3) (Prim2SF (p * q - r * s)).
Proof.
  intros Hk Hp Hq Hr Hs.
  replace (k + k + 3)%Z with (k + k + 1 + 2)%Z by lia.
  apply mag_sub; [lia| |]; apply mag_mul; (lia || done).
Qed.

Lemma mag_vec_sub (k : Z) (a b : vec) :
  (-1074 <= k)%Z -> mag_vec k a -> mag_vec k b -> mag_vec (k + 2) (_sub a b).
Proof.
  destruct a as [[a0 a1] a2], b as [[b0 b1] b2].
  intros Hk (H0 & H1 & H2) (G0 & G1 & G2).
  split; [|split]; cbn [fst snd _sub]; by apply mag_sub.
Qed.

Lemma mag_vec_cross (k : Z) (a b : vec) :
  (0 <= k)%Z -> mag_vec k a -> mag_vec k b ->
  mag_vec (k + k + 3) (_cross a b).
Proof.
  destruct a as [[a0 a1] a2], b as [[b0 b1] b2].
  intros Hk (H0 & H1 & H2) (G0 & G1 & G2).
  split; [|split]; cbn [fst snd _cross]; by apply mag_cross_component.
Qed.

(** [_norm] on a vector whose squares are in range: it returns, or it
    raises a [ValueError]; no [OverflowError]. *)
Lemma norm_in_range (n : vec) :
  mag_vec 485 n →
  match _norm n with
  | Ok _ | Raise (ValueError _) => True
  | Raise _ => False
  end.
Proof.
  destruct n as [[n0 n1] n2]. intros (H0 & H1 & H2). cbn [fst snd] in H0, H1, H2.
  rewrite norm_unfold. unfold magnitude.
  destruct (pow_2_no_overflow n0 H0) as [x ->].
  destruct (pow_2_no_overflow n1 H1) as [y ->].
  destruct (pow_2_no_overflow n2 H2) as [z ->].
  cbn [bind].
  destruct (PyFloat.pow_half (x + y + z)) as [L|e] eqn:HL.
  - by destruct (L =? 0)%float.
  - apply pow_half_raises in HL. by subst e.
Qed.

Lemma record_vertices_mag (i : str) (a b c : vec) :
  record_vertices i = Ok (a, b, c) →
  mag_vec 130 a ∧ mag_vec 130 b ∧ mag_vec 130 c.
Proof.
  unfold record_vertices, Struct.unpack_12x9f2x.
  case_decide; [|discriminate]. cbn [bind]. intros Heq.
  injection Heq as <- <- <-.
  unfold mag_vec, Struct.f32_at. cbn [fst snd].
  split; [|split]; (split; [|split]); apply mag_of_bits32.
Qed.

Lemma record_vertices_whole (i : str) :
  length i = 50%nat → ∃ a b c, record_vertices i = Ok (a, b, c).
Proof.
  intros H. unfold record_vertices, Struct.unpack_12x9f2x.
  rewrite decide_True by done. cbn [bind]. eauto.
Qed.

Lemma raw_normal_mag (a b c : vec) :
  mag_vec 130 a → mag_vec 130 b → mag_vec 130 c →
  mag_vec 485 (raw_normal a b c).
Proof.
  intros Ha Hb Hc. unfold raw_normal.
  assert (Hu : mag_vec 132 (_sub b a)) by (by apply (mag_vec_sub 130)).
  assert (Hv : mag_vec 132 (_sub c b)) by (by apply (mag_vec_sub 130)).
  pose proof (mag_vec_cross 132 _ _ ltac:(lia) Hu Hv) as (H0 & H1 & H2).
  split; [|split]; apply (mag_mono (132 + 132 + 3)); (lia || done).
Qed.

(** Every 50-byte record settles: the single-precision coordinates are too
    small for the square of a component of the normal to overflow. *)
Lemma whole_record_settles (i : str) : length i = 50%nat → settles i = true.
Proof.
  intros Hlen. unfold settles.
  destruct (record_vertices_whole i Hlen) as (a & b & c & Hv). rewrite Hv.
  destruct (record_vertices_mag i a b c Hv) as (Ha & Hb & Hc).
  pose proof (norm_in_range _ (raw_normal_mag a b c Ha Hb Hc)) as Hn.
  by destruct (_norm (raw_normal a b c)) as [|[]].
Qed.

(** ** How [_norm] can fail *)

Section Signs.

Lemma not_negative_round_aux (M E : Z) (l : location) :
  not_negative (binary_round_aux prec emax false M E l).
Proof.
  unfold binary_round_aux.
  destruct (shr_fexp prec emax M E l) as [mrs' e'].
  destruct (shr_fexp prec emax _ e' loc_Exact) as [mrs'' e''].
  destruct (shr_m mrs'') as [|p|p]; [done| |done].
  by destruct (Z.leb e'' (emax - prec)).
Qed.

Lemma not_negative_normalize (M e : Z) :
  (0 <= M)%Z -> not_negative (binary_normalize prec emax M e false).
Proof.
  intros HM. destruct M as [|p|p]; [done| |lia].
  unfold binary_normalize, binary_round.
  destruct (shl_align p e _) as [mz ez]. apply not_negative_round_aux.
Qed.

Lemma SFadd_finite (sx sy : bool) (mx my : positive) (ex ey : Z) :
  SFadd prec emax (S754_finite sx mx ex) (S754_finite sy my ey) =
    binary_normalize prec emax
      (cond_Zopp sx (Z.pos (fst (shl_align mx ex (Z.min ex ey))))
       + cond_Zopp sy (Z.pos (fst (shl_align my ey (Z.min ex ey)))))
      (Z.min ex ey) false.
Proof. reflexivity. Qed.

Lemma not_negative_SFadd (x y : spec_float) :
  not_negative x -> not_negative y -> not_negative (SFadd prec emax x y).
Proof.
  destruct x as [sx|sx| |sx mx ex], y as [sy|sy| |sy my ey];
    try (destruct sx; try done; destruct sy; try done;
         rewrite SFadd_finite; intros _ _; apply not_negative_normalize;
         unfold cond_Zopp; lia);
    try destruct sx; try destruct sy; done.
Qed.

Lemma not_negative_square (x : spec_float) :
  not_negative (SFmul prec emax (SFabs x) (SFabs x)).
Proof.
  destruct x as [s|s| |s m e]; try done.
  apply not_negative_round_aux.
Qed.

Lemma Prim2SF_one : Prim2SF 1 = S754_finite false 4503599627370496 (-52).
Proof. reflexivity. Qed.

Lemma Prim2SF_0 : Prim2SF 0 = S754_zero false.
Proof. reflexivity. Qed.

(** The value of [x ** 2], when there is one, is not below zero. *)
Lemma pow_2_not_negative (x y : float) :
  PyFloat.pow_2 x = Ok y -> not_negative (Prim2SF y).
Proof.
  unfold PyFloat.pow_2.
  destruct (is_nan x) eqn:Hn.
  { intros [= <-]. rewrite is_nan_spec in Hn. by destruct (Prim2SF x). }
  destruct (is_infinity x); [intros [= <-]; by rewrite Prim2SF_infinity|].
  destruct (x =? 0)%float; [intros [= <-]; by rewrite Prim2SF_0|].
  destruct (abs x =? 1)%float; [intros [= <-]; by rewrite Prim2SF_one|].
  destruct (is_infinity (abs x * abs x)); [done|]. intros [= <-].
  rewrite mul_spec, abs_spec. apply not_negative_square.
Qed.

(** [s ** 0.5] does not raise on a base that is not below zero. *)
Lemma pow_half_not_negative (s : float) :
  not_negative (Prim2SF s) -> exists L, PyFloat.pow_half s = Ok L.
Proof.
  intros Hs. unfold PyFloat.pow_half.
  destruct (is_nan s); [eauto|]. destruct (is_infinity s); [eauto|].
  destruct (s =? 0)%float; [eauto|].
  rewrite ltb_spec, Prim2SF_0.
  assert (Hlt : SFltb (Prim2SF s) (S754_zero false) = false)
    by (by destruct (Prim2SF s) as [[]|[]| |[] m e]).
  rewrite Hlt. destruct (s =? 1)%float; eauto.
Qed.

Lemma magnitude_overflow (a : vec) (e : exn) :
  magnitude a = Raise e -> e = OverflowError.
Proof.
  destruct a as [[a0 a1] a2]. unfold magnitude.
  destruct (PyFloat.pow_2 a0) as [x|e0] eqn:H0;
    [|cbn [bind]; intros [= <-]; by eapply pow_2_raises].
  destruct (PyFloat.pow_2 a1) as [y|e1] eqn:H1;
    [|cbn [bind]; intros [= <-]; by eapply pow_2_raises].
  destruct (PyFloat.pow_2 a2) as [z|e2] eqn:H2;
    [|cbn [bind]; intros [= <-]; by eapply pow_2_raises].
  cbn [bind]. intros Hh.
  destruct (pow_half_not_negative (x + y + z)) as [L HL]; [|congruence].
  rewrite !add_spec.
  apply not_negative_SFadd; [apply not_negative_SFadd|];
    by eapply pow_2_not_negative.
Qed.

End Signs.

(** X6. [_norm] fails in two ways only: with its zero-length [ValueError], or
    with the [OverflowError] of a square out of range. The [ValueError] of
    [**] for a negative base and the [ZeroDivisionError] of [/] cannot
    occur. *)
Theorem norm_failure_modes (a : vec) (e : exn) :
  _norm a = Raise e → e = zero_length ∨ e = OverflowError.
Proof.
  destruct a as [[a0 a1] a2]. rewrite norm_unfold.
  destruct (magnitude (a0, a1, a2)) as [L|e'] eqn:Hm.
  - destruct (L =? 0)%float; [|done]. intros [= <-]. by left.
  - intros [= <-]. right. by eapply magnitude_overflow.
Qed.

Lemma norm_failure_modes_witness :
  _norm (0, 0, 0x1p+600)%float = Raise OverflowError
  ∧ (OverflowError = zero_length ∨ OverflowError = OverflowError).
Proof.
  assert (H : _norm (0, 0, 0x1p+600)%float = Raise OverflowError)
    by (vm_compute; reflexivity).
  split; [exact H|]. exact (norm_failure_modes _ _ H).
Defined.

(** ** The stream of a binary file *)

(** The three things [emit] can do. *)
Lemma emit_cases (k : nat) (a b c : vec) (rest : gen item) :
  (∃ n, _norm (raw_normal a b c) = Ok n
        ∧ emit k a b c rest
          = ((status_ok k, Some (a, b, c, n)) :: fst rest, snd rest))
  ∨ (is_degenerate a b c = true
     ∧ emit k a b c rest
       = ((status_skipped k, None)
          :: (status_skipped k, Some (a, b, c, raw_normal a b c)) :: fst rest,
          snd rest))
  ∨ (∃ e, _norm (raw_normal a b c) = Raise e
          ∧ is_degenerate a b c = false
          ∧ emit k a b c rest = ([], Uncaught e)).
Proof.
  destruct (_norm (raw_normal a b c)) as [n|e] eqn:Hn.
  - left. exists n. split; [done|]. by rewrite (emit_normal _ _ _ _ _ _ Hn).
  - destruct (is_degenerate a b c) eqn:Hd.
    + right; left. split; [done|]. by rewrite (emit_degenerate _ _ _ _ _ Hd).
    + right; right. exists e. split; [done|]. split; [done|].
      by rewrite (emit_uncaught _ _ _ _ _ _ Hn Hd).
Qed.

(** A whole record gives one facet, [record_facet], whatever comes after. *)
Lemma readbinary_from_whole (cnt : nat) (i : str) (items : list str) :
  length i = 50%nat →
  ∃ f, record_facet i = Some f
       ∧ snd (readbinary_from cnt (i :: items))
         = snd (readbinary_from (S cnt) items)
       ∧ omap snd (yielded (readbinary_from cnt (i :: items)))
         = f :: omap snd (yielded (readbinary_from (S cnt) items)).
Proof.
  intros Hlen. pose proof (whole_record_settles i Hlen) as Hs.
  unfold settles in Hs. unfold record_facet.
  destruct (record_vertices i) as [[[a b] c]|] eqn:Hv; [|done].
  rewrite (readbinary_from_cons _ _ _ _ _ _ Hv).
  destruct (emit_cases (cnt + 1) a b c (readbinary_from (S cnt) items))
    as [(n & Hn & ->)|[(Hd & ->)|(e & Hn & Hd & _)]].
  - rewrite Hn. eauto.
  - unfold is_degenerate in Hd.
    destruct (_norm (raw_normal a b c)) as [n|[]]; try done. eauto.
  - unfold is_degenerate in Hd. rewrite Hn in Hs, Hd. by destruct e.
Qed.

Lemma readbinary_from_short (cnt : nat) (i : str) (items : list str) :
  length i ≠ 50%nat →
  readbinary_from cnt (i :: items) = ([], Uncaught StructError).
Proof.
  intros Hlen. simpl. unfold record_vertices, Struct.unpack_12x9f2x.
  by rewrite decide_False.
Qed.

(** Over whole records the binary generator ends normally, and the facets
    it yields are those of the records, in order. *)
Lemma readbinary_whole_records (items : list str) (cnt : nat) :
  Forall (λ i, length i = 50%nat) items →
  snd (readbinary_from cnt items) = StopIteration
  ∧ map Some (omap snd (yielded (readbinary_from cnt items)))
    = map record_facet items.
Proof.
  intros H. revert cnt. induction H as [|i items Hi _ IH]; intros cnt; [done|].
  destruct (readbinary_from_whole cnt i items Hi) as (f & Hf & H1 & H2).
  destruct (IH (S cnt)) as [IH1 IH2]. split; [exact (eq_trans H1 IH1)|].
  etrans; [exact (f_equal (map Some) H2)|].
  cbn [map]. exact (f_equal2 cons (eq_sym Hf) IH2).
Qed.

(** A record that is not whole, after whole ones: the generator yields the
    facets of the whole records and stops with the error of
    [struct.unpack]. *)
Lemma readbinary_partial_record (pre : list str) (i : str) (post : list str)
    (cnt : nat) :
  Forall (λ i, length i = 50%nat) pre →
  length i ≠ 50%nat →
  snd (readbinary_from cnt (pre ++ i :: post)) = Uncaught StructError
  ∧ map Some (omap snd (yielded (readbinary_from cnt (pre ++ i :: post))))
    = map record_facet pre.
Proof.
  intros H Hi. revert cnt. induction H as [|j pre Hj _ IH]; intros cnt.
  - by rewrite app_nil_l, readbinary_from_short.
  - rewrite <- app_comm_cons.
    destruct (readbinary_from_whole cnt j (pre ++ i :: post) Hj)
      as (f & Hf & H1 & H2).
    destruct (IH (S cnt)) as [IH1 IH2]. split; [exact (eq_trans H1 IH1)|].
    etrans; [exact (f_equal (map Some) H2)|].
    cbn [map]. exact (f_equal2 cons (eq_sym Hf) IH2).
Qed.

Lemma blocks_whole_or_partial (d : str) :
  ((length d mod 50 = 0)%nat →
   Forall (λ i, length i = 50%nat) (blocks d)
   ∧ length (blocks d) = (length d / 50)%nat)
  ∧ ((length d mod 50 ≠ 0)%nat →
     ∃ pre i, blocks d = pre ++ [i]
              ∧ Forall (λ i, length i = 50%nat) pre
              ∧ length i ≠ 50%nat
              ∧ length pre = (length d / 50)%nat).
Proof.
  induction d as [d IH] using (induction_ltof1 _ length). unfold ltof in IH.
  destruct (decide (d = [])) as [->|Hd].
  { rewrite blocks_nil. split; [done|]. intros H. by destruct H. }
  assert (Hpos : (0 < length d)%nat) by (destruct d; [done|simpl; lia]).
  rewrite blocks_cons by done.
  destruct (decide (length d < 50)%nat) as [Hlt|Hge].
  - assert (Hdrop : drop 50 d = []) by (apply drop_ge; lia).
    rewrite Hdrop, blocks_nil.
    rewrite (Nat.mod_small (length d) 50), (Nat.div_small (length d) 50) by lia.
    split; [lia|]. intros _. exists [], (take 50 d).
    split; [done|]. split; [done|]. split; [rewrite length_take; lia|done].
  - destruct (IH (drop 50 d)) as [IH1 IH2]; [rewrite length_drop; lia|].
    rewrite length_drop in IH1, IH2.
    assert (Hmod : (length d mod 50 = (length d - 50) mod 50)%nat).
    { replace (length d) with ((length d - 50) + 1 * 50)%nat at 1 by lia.
      by rewrite Nat.Div0.mod_add. }
    assert (Hdiv : (length d / 50 = S ((length d - 50) / 50))%nat).
    { replace (length d) with ((length d - 50) + 1 * 50)%nat at 1 by lia.
      rewrite Nat.div_add by lia. lia. }
    rewrite Hmod, Hdiv. split.
    + intros H0. destruct (IH1 H0) as [Hall Hn]. split.
      * constructor; [rewrite length_take; lia|done].
      * cbn [length]. by rewrite Hn.
    + intros H0. destruct (IH2 H0) as (pre & i & Hb & Hall & Hi & Hn).
      exists (take 50 d :: pre), i. rewrite Hb.
      split; [done|]. split; [constructor; [rewrite length_take; lia|done]|].
      split; [done|]. cbn [length]. by rewrite Hn.
Qed.

Lemma blocks_lookup (d : str) (k : nat) (i : str) :
  blocks d !! k = Some i → i = Py.slice d (50 * k) (50 * k + 50).
Proof.
  unfold blocks, Py.range0. rewrite !list_lookup_fmap.
  destruct (seq 0 _ !! k) as [n|] eqn:Hn; [|done].
  apply lookup_seq in Hn as [-> _]. cbn [fmap option_fmap option_map].
  intros [= <-]. f_equal; lia.
Qed.

(** The reader of an accepted binary file. *)
Lemma fromstl_binary_reader (data name : str) (nf : Z) (reader : gen item) :
  is_binary data = true →
  fromstl data = Ok (name, nf, reader) →
  (84 ≤ length data)%nat
  ∧ reader = _readbinary (blocks (drop 84 data))
  ∧ nf = Z.of_nat ((length data - 84) / 50).
Proof.
  intros Hb Hok.
  assert (Hlen : (84 ≤ length data)%nat).
  { destruct (decide (84 ≤ length data)%nat) as [|Hn]; [done|].
    pose proof (fromstl_too_short data ltac:(lia)). congruence. }
  rewrite (fromstl_binary_unfold data Hb Hlen) in Hok.
  case_bool_decide as Hnf; [done|]. injection Hok as _ <- <-.
  split; [done|]. split.
  - unfold blocks. by rewrite length_drop.
  - by rewrite Hnf, Nat2Z.inj_div.
Qed.

(** X4. The stream of a binary file that [fromstl] accepts ends normally when the
    bytes after the header are a multiple of 50, and with the error of
    [struct.unpack] when they are not, never with an error of [_norm]: the
    single-precision coordinates are too small for a square to overflow. In
    both cases the facets it yields are as many as the header declares. *)
Theorem binary_stream_ending (data name : str) (nf : Z) (reader : gen item) :
  is_binary data = true →
  fromstl data = Ok (name, nf, reader) →
  (snd reader = StopIteration ↔ ((length data - 84) mod 50 = 0)%nat)
  ∧ (snd reader = StopIteration ∨ snd reader = Uncaught StructError)
  ∧ Z.of_nat (length (omap snd (yielded reader))) = nf.
Proof.
  intros Hb Hok.
  destruct (fromstl_binary_reader data name nf reader Hb Hok)
    as (Hlen & -> & ->).
  destruct (blocks_whole_or_partial (drop 84 data)) as [Hw Hp].
  rewrite length_drop in Hw, Hp.
  destruct (decide ((length data - 84) mod 50 = 0)%nat) as [H0|H0].
  - destruct (Hw H0) as [Hall Hn].
    destruct (readbinary_whole_records _ 0 Hall) as [Hend Hf].
    unfold _readbinary. split; [by rewrite Hend|]. split; [by left|].
    apply (f_equal length) in Hf. rewrite !length_map in Hf.
    by rewrite Hf, Hn.
  - destruct (Hp H0) as (pre & i & Heq & Hall & Hi & Hn).
    destruct (readbinary_partial_record pre i [] 0 Hall Hi) as [Hend Hf].
    unfold _readbinary. rewrite Heq.
    split; [rewrite Hend; split; [discriminate|done]|]. split; [by right|].
    apply (f_equal length) in Hf. rewrite !length_map in Hf.
    by rewrite Hf, Hn.
Qed.

Lemma binary_stream_ending_witness :
  (snd (_readbinary [Sample.triangle; repeat Sample.NUL 25]) = StopIteration
   ↔ ((length trailing_file - 84) mod 50 = 0)%nat)
  ∧ (snd (_readbinary [Sample.triangle; repeat Sample.NUL 25]) = StopIteration
     ∨ snd (_readbinary [Sample.triangle; repeat Sample.NUL 25])
       = Uncaught StructError)
  ∧ Z.of_nat (length (omap snd (yielded
        (_readbinary [Sample.triangle; repeat Sample.NUL 25])))) = 1%Z.
Proof.
  assert (Hb : is_binary trailing_file = true) by (vm_compute; reflexivity).
  assert (Hok : fromstl trailing_file
                = Ok (lit "unknown", 1%Z,
                      _readbinary [Sample.triangle; repeat Sample.NUL 25]))
    by (vm_compute; reflexivity).
  exact (binary_stream_ending _ _ _ _ Hb Hok).
Defined.

(** X5. [allfacets] on the reader of an accepted binary file whose bytes after
    the header are a multiple of 50 returns as many facets as the header
    declares, and the facet at position [k] is the one of the 50 bytes at
    offset [84 + 50 * k]; on a file with bytes left over it raises the error
    of [struct.unpack] and returns no list at all. *)
Theorem allfacets_binary_file (data name : str) (nf : Z) (reader : gen item)
    (verbose : bool) :
  is_binary data = true →
  fromstl data = Ok (name, nf, reader) →
  (((length data - 84) mod 50 = 0)%nat →
   ∃ fl, snd (allfacets reader verbose) = Ok fl
         ∧ Z.of_nat (length fl) = nf
         ∧ ∀ k f, fl !! k = Some f →
                  record_facet (Py.slice data (84 + 50 * k) (134 + 50 * k))
                  = Some f)
  ∧ (((length data - 84) mod 50 ≠ 0)%nat →
     snd (allfacets reader verbose) = Raise StructError).
Proof.
  intros Hb Hok.
  destruct (fromstl_binary_reader data name nf reader Hb Hok)
    as (Hlen & -> & ->).
  destruct (blocks_whole_or_partial (drop 84 data)) as [Hw Hp].
  rewrite length_drop in Hw, Hp. rewrite allfacets_spec. cbn [snd].
  unfold _readbinary. split; intros H0.
  - destruct (Hw H0) as [Hall Hn].
    destruct (readbinary_whole_records _ 0 Hall) as [Hend Hf].
    rewrite Hend. eexists. split; [done|]. split.
    + apply (f_equal length) in Hf. rewrite !length_map in Hf.
      by rewrite Hf, Hn.
    + intros k f Hk.
      assert (Hk' : map Some (omap snd (yielded
                      (readbinary_from 0 (blocks (drop 84 data))))) !! k
                    = Some (Some f))
        by (by rewrite list_lookup_fmap, Hk).
      rewrite Hf, list_lookup_fmap in Hk'.
      destruct (blocks (drop 84 data) !! k) as [i|] eqn:Hi; [|done].
      apply blocks_lookup in Hi. injection Hk' as Hk'. rewrite <- Hk', Hi.
      f_equal. unfold Py.slice. rewrite drop_drop.
      replace (134 + 50 * k - (84 + 50 * k))%nat with 50%nat by lia.
      replace (50 * k + 50 - 50 * k)%nat with 50%nat by lia.
      do 2 f_equal.
  - destruct (Hp H0) as (pre & i & Heq & Hall & Hi & Hn).
    destruct (readbinary_partial_record pre i [] 0 Hall Hi) as [Hend Hf].
    rewrite Heq. by rewrite Hend.
Qed.

Lemma allfacets_binary_file_witness :
  ∃ fl, snd (allfacets (_readbinary [Sample.collinear; Sample.triangle]) true)
        = Ok fl
        ∧ Z.of_nat (length fl) = 2%Z
        ∧ ∀ k f, fl !! k = Some f →
                 record_facet (Py.slice whole_file (84 + 50 * k) (134 + 50 * k))
                 = Some f.
Proof.
  assert (Hb : is_binary whole_file = true) by (vm_compute; reflexivity).
  assert (Hok : fromstl whole_file
                = Ok (lit "cube", 2%Z,
                      _readbinary [Sample.collinear; Sample.triangle]))
    by (vm_compute; reflexivity).
  assert (Hm : ((length whole_file - 84) mod 50 = 0)%nat)
    by (vm_compute; reflexivity).
  exact (proj1 (allfacets_binary_file _ _ _ _ true Hb Hok) Hm).
Defined.

(** ** Inputs too short to be text *)

(** X2. An input of fewer than 126 bytes always goes to the binary branch,
    whatever it holds, since ["vertex"] cannot occur at offset 120 or
    later: a short text file is never read as text. When [fromstl] accepts
    such an input, the count is 0 and the reader yields nothing. *)
Theorem short_input_is_binary (data : str) :
  (length data < 126)%nat →
  is_binary data = true
  ∧ ∀ name nf reader,
      fromstl data = Ok (name, nf, reader) → nf = 0%Z ∧ yielded reader = [].
Proof.
  intros Hlen.
  assert (Hb : is_binary data = true).
  { unfold is_binary, Py.find. case_decide as H120; [done|].
    destruct (Py.find_at (lit "vertex") (drop 120 data) 120) as [j|] eqn:Hf;
      [|done].
    apply find_at_Some in Hf as (k & -> & Hk).
    apply startswith_take in Hk. apply (f_equal length) in Hk.
    rewrite length_take, !length_drop in Hk.
    change (length (lit "vertex")) with 6%nat in Hk. lia. }
  split; [done|]. intros name nf reader Hok.
  destruct (fromstl_binary_reader data name nf reader Hb Hok)
    as (H84 & -> & ->).
  split; [by rewrite Nat.div_small by lia|].
  destruct (decide (drop 84 data = [])) as [->|Hd]; [done|].
  rewrite blocks_cons by done. unfold _readbinary.
  by rewrite readbinary_from_short by (rewrite length_take, length_drop; lia).
Qed.

(** The one-facet text file of 105 bytes is sent to the binary branch, where
    the four bytes ["0 0 "] at offset 80 are read as the facet count. *)
Lemma short_input_is_binary_witness :
  (length (lit ("solid s " ++ Sample.triangle_text ++ "endsolid")) < 126)%nat
  ∧ is_binary (lit ("solid s " ++ Sample.triangle_text ++ "endsolid")) = true
  ∧ fromstl (lit ("solid s " ++ Sample.triangle_text ++ "endsolid"))
    = Raise mismatch.
Proof.
  assert (H : (length (lit ("solid s " ++ Sample.triangle_text ++ "endsolid"))
               < 126)%nat) by (vm_compute; lia).
  split; [exact H|]. split; [|vm_compute; reflexivity].
  exact (proj1 (short_input_is_binary _ H)).
Defined.

(** ** The numbering of the items *)

Lemma numbered_emit (k : nat) (a b c : vec) (rest : gen item) :
  numbered (S k) (yielded rest) = true →
  numbered k (yielded (emit (k + 1) a b c rest)) = true.
Proof.
  intros Hrest. rewrite Nat.add_1_r. unfold yielded in *.
  destruct (emit_cases (S k) a b c rest)
    as [(n & _ & ->)|[(_ & ->)|(e & _ & _ & ->)]]; cbn [fst numbered].
  - by rewrite bool_decide_eq_true_2, Hrest.
  - by rewrite !bool_decide_eq_true_2, Hrest.
  - done.
Qed.

Lemma numbered_readbinary_from (items : list str) (cnt : nat) :
  numbered cnt (yielded (readbinary_from cnt items)) = true.
Proof.
  revert cnt. induction items as [|i items IH]; intros cnt; [done|].
  cbn [readbinary_from].
  destruct (record_vertices i) as [[[a b] c]|]; [|done].
  apply numbered_emit, IH.
Qed.

Lemma numbered_readtext_from (items : list str) (cnt : nat) :
  numbered cnt (yielded (readtext_from cnt items)) = true.
Proof.
  revert cnt.
  induction items as [items IH] using (induction_ltof1 _ length).
  unfold ltof in IH. intros cnt.
  destruct items as [|tok items']; [by rewrite readtext_from_equation_1|].
  rewrite readtext_from_equation_2. case_bool_decide; [|done].
  destruct (block_vertices (tok :: items')) as [[[a b] c]|]; [|done].
  apply numbered_emit. rewrite <- Nat.add_1_r. apply IH.
  rewrite length_drop. cbn [length]. lia.
Qed.

(** X7. Both generators number their facets from 1 without a gap, and a [None]
    marker never comes alone: it is followed at once by an item that holds
    the facet itself, under the same status. This holds for every input,
    also when the generator stops with an exception. *)
Theorem stream_numbered (items : list str) :
  numbered 0 (yielded (_readbinary items)) = true
  ∧ numbered 0 (yielded (_readtext items)) = true.
Proof.
  split; [apply numbered_readbinary_from | apply numbered_readtext_from].
Qed.

(** ** The bytes of a record that are not read *)

Lemma f32_at_body (n body t : str) (off : nat) :
  length n = 12%nat → length body = 36%nat →
  (12 ≤ off)%nat → (off + 4 ≤ 48)%nat →
  Struct.f32_at (n ++ body ++ t) off
  = PyFloat.of_bits32 (Struct.le_uint (Py.slice body (off - 12) (off - 8))).
Proof.
  intros Hn Hb H1 H2. unfold Struct.f32_at, Py.slice. do 2 f_equal.
  rewrite drop_app_ge by lia. rewrite Hn.
  replace (off + 4 - off)%nat with 4%nat by lia.
  replace (off - 8 - (off - 12))%nat with 4%nat by lia.
  rewrite drop_app_le by lia.
  rewrite take_app_le by (rewrite length_drop; lia). done.
Qed.

(** X8. The facet of a binary record depends on the 36 bytes of its vertices
    only: the 12 bytes of the normal stored in the file and the 2 bytes
    after the vertices are not read, and the normal is always the one
    computed from the vertices. *)
Theorem record_ignores_normal (n1 n2 body t1 t2 : str) :
  length n1 = 12%nat → length n2 = 12%nat → length body = 36%nat →
  length t1 = 2%nat → length t2 = 2%nat →
  record_vertices (n1 ++ body ++ t1) = record_vertices (n2 ++ body ++ t2)
  ∧ record_facet (n1 ++ body ++ t1) = record_facet (n2 ++ body ++ t2)
  ∧ ∀ cnt, readbinary_from cnt [n1 ++ body ++ t1]
           = readbinary_from cnt [n2 ++ body ++ t2].
Proof.
  intros H1 H2 Hb G1 G2.
  assert (Hv : record_vertices (n1 ++ body ++ t1)
               = record_vertices (n2 ++ body ++ t2)).
  { unfold record_vertices, Struct.unpack_12x9f2x.
    rewrite !decide_True by (rewrite !length_app; lia).
    rewrite !(f32_at_body n1), !(f32_at_body n2) by lia. done. }
  split; [done|]. split.
  - unfold record_facet. by rewrite Hv.
  - intros cnt. cbn [readbinary_from]. by rewrite Hv.
Qed.

Lemma record_ignores_normal_witness :
  record_vertices (repeat "A"%char 12 ++ take 36 (drop 12 Sample.triangle)
                   ++ lit "zz")
  = record_vertices Sample.triangle.
Proof.
  apply (record_ignores_normal (repeat "A"%char 12) (repeat Sample.NUL 12)
           (take 36 (drop 12 Sample.triangle)) (lit "zz") (repeat Sample.NUL 2));
    vm_compute; reflexivity.
Defined.

(** ** The ends of the name of a binary file *)

Lemma lstrip_head (s chars : str) (c : ascii) :
  head (Py.lstrip s chars) = Some c → c ∉ chars.
Proof.
  induction s as [|d s IH]; [done|]. cbn [Py.lstrip].
  case_bool_decide as Hd; [done|]. by intros [= <-].
Qed.

Lemma lstrip_suffix (s chars : str) : Py.lstrip s chars `suffix_of` s.
Proof.
  induction s as [|d s IH]; [done|]. cbn [Py.lstrip].
  case_bool_decide; [by apply suffix_cons_r|done].
Qed.

Lemma rev_is_reverse {A : Type} (l : list A) : rev l = reverse l.
Proof. unfold reverse. by rewrite <- rev_alt. Qed.

Lemma rstrip_prefix (s chars : str) : Py.rstrip s chars `prefix_of` s.
Proof.
  unfold Py.rstrip. rewrite !rev_is_reverse. apply prefix_suffix_reverse.
  rewrite reverse_involutive. apply lstrip_suffix.
Qed.

Lemma rstrip_last (s chars : str) (c : ascii) :
  last (Py.rstrip s chars) = Some c → c ∉ chars.
Proof.
  unfold Py.rstrip. rewrite (rev_is_reverse (Py.lstrip _ _)), last_reverse.
  apply lstrip_head.
Qed.

Lemma strip_ends (s chars : str) (c : ascii) :
  (head (Py.strip s chars) = Some c → c ∉ chars)
  ∧ (last (Py.strip s chars) = Some c → c ∉ chars).
Proof.
  unfold Py.strip. split; [|apply rstrip_last].
  destruct (rstrip_prefix (Py.lstrip s chars) chars) as [t Ht].
  destruct (Py.rstrip (Py.lstrip s chars) chars) as [|d r] eqn:Hr; [done|].
  intros [= ->]. apply (lstrip_head s). by rewrite Ht.
Qed.

(** X9. The name [fromstl] returns for a binary file is never empty, and it
    neither begins nor ends with a NUL, a space, a tab, a line feed or a
    carriage return. *)
Theorem fromstl_binary_name_trimmed (data name : str) (nf : Z)
    (reader : gen item) :
  is_binary data = true →
  fromstl data = Ok (name, nf, reader) →
  name ≠ []
  ∧ (∀ c, head name = Some c → c ∉ name_padding)
  ∧ (∀ c, last name = Some c → c ∉ name_padding).
Proof.
  intros Hb Hok.
  assert (Hlen : (84 ≤ length data)%nat).
  { destruct (decide (84 ≤ length data)%nat) as [|Hn]; [done|].
    pose proof (fromstl_too_short data ltac:(lia)). congruence. }
  rewrite (fromstl_binary_unfold data Hb Hlen) in Hok.
  case_bool_decide; [done|]. injection Hok as <- _ _.
  unfold binary_name. case_decide as Hn.
  - split; [done|]. split; intros c [= <-]; vm_compute;
      intros H'; repeat (apply elem_of_cons in H' as [H'|H']; [done|]);
      by apply elem_of_nil in H'.
  - split; [by destruct (Py.strip _ _)|]. split; intros c; apply strip_ends.
Qed.

Lemma fromstl_binary_name_trimmed_witness :
  lit "cube" ≠ []
  ∧ (∀ c, head (lit "cube") = Some c → c ∉ name_padding)
  ∧ (∀ c, last (lit "cube") = Some c → c ∉ name_padding).
Proof.
  assert (Hb : is_binary whole_file = true) by (vm_compute; reflexivity).
  assert (Hok : fromstl whole_file
                = Ok (lit "cube", 2%Z,
                      _readbinary [Sample.collinear; Sample.triangle]))
    by (vm_compute; reflexivity).
  exact (fromstl_binary_name_trimmed _ _ _ _ Hb Hok).
Defined.

(** ** The tokens of a text file *)

Lemma split_from_clean (cur s : str) :
  Forall (λ c, Py.isspace c = false) cur →
  Forall clean (Py.split_from cur s).
Proof.
  revert cur. induction s as [|c s IH]; intros cur Hcur; cbn [Py.split_from].
  - destruct cur as [|d cur]; [done|]. constructor; [|done]. split.
    + intros Hn. apply (f_equal length) in Hn.
      rewrite length_rev in Hn. done.
    + rewrite rev_is_reverse. by apply Forall_reverse.
  - destruct (Py.isspace c) eqn:Hc.
    + destruct cur as [|d cur]; [by apply IH|]. constructor; [|by apply IH].
      split.
      * intros Hn. apply (f_equal length) in Hn.
        rewrite length_rev in Hn. done.
      * rewrite rev_is_reverse. by apply Forall_reverse.
    + apply IH. by constructor.
Qed.

Lemma lstrip_clean (t : str) : clean t → Py.lstrip t Py.whitespace = t.
Proof.
  intros [Hne Hall]. destruct t as [|c t]; [done|]. cbn [Py.lstrip].
  apply Forall_cons in Hall as [Hc _]. unfold Py.isspace in Hc. by rewrite Hc.
Qed.

Lemma strip_clean (t : str) : clean t → Py.strip t Py.whitespace = t.
Proof.
  intros Ht. unfold Py.strip, Py.rstrip. rewrite (lstrip_clean t Ht).
  rewrite lstrip_clean; [apply rev_involutive|].
  destruct Ht as [Hne Hall]. split.
  - intros Hn. apply (f_equal length) in Hn. rewrite length_rev in Hn.
    by destruct t.
  - rewrite rev_is_reverse. by apply Forall_reverse.
Qed.

(** X10. The tokens [fromstl] works on are the words of the file as [split]
    gives them: none is empty, none holds a whitespace character, and the
    [strip] applied to each of them changes nothing. *)
Theorem tokens_clean (data : str) :
  tokens data = Py.split data ∧ Forall clean (tokens data).
Proof.
  assert (Hs : Forall clean (Py.split data)) by (by apply split_from_clean).
  assert (Heq : tokens data = Py.split data).
  { unfold tokens. induction Hs as [|t l Ht _ IH]; [done|].
    cbn [map]. by rewrite (strip_clean t Ht), IH. }
  split; [done|]. by rewrite Heq.
Qed.

(** ** The reader of a text file *)

Lemma index_from_split (x : str) (l : list str) (i j : nat) :
  Py.index_from x l i = Some j →
  ∃ pre post, l = pre ++ x :: post ∧ (x ∉ pre) ∧ j = (i + length pre)%nat.
Proof.
  revert i. induction l as [|y l IH]; intros i; [done|]. cbn [Py.index_from].
  case_bool_decide as Hy.
  - intros [= <-]. exists [], l. subst y. split; [done|].
    split; [apply not_elem_of_nil|cbn [length]; lia].
  - intros H. apply IH in H as (pre & post & -> & Hpre & ->).
    exists (y :: pre), post. split; [done|]. split.
    + intros [Heq|Hin]%elem_of_cons; [by subst|done].
    + cbn [length]. lia.
Qed.

Lemma count_absent (x : str) (pre post : list str) :
  x ∉ pre → Py.count (pre ++ post) x = Py.count post x.
Proof.
  intros Hpre. unfold Py.count. rewrite filter_app, length_app.
  assert (Hnil : filter (λ y, y = x) pre = []).
  { induction pre as [|y pre IH]; [done|].
    rewrite filter_cons_False by (intros ->; apply Hpre; by left).
    apply IH. intros Hin. apply Hpre. by right. }
  by rewrite Hnil.
Qed.

(** X11. On an input sent to the text branch [fromstl] either raises
    ["Not an STL file."] or returns a reader that starts at the first
    ["facet"] token, as the comment in the source says; the count it returns
    is then that token and the ["facet"] tokens after it, so at least 1. *)
Theorem fromstl_text_reader (data : str) :
  is_binary data = false →
  fromstl data = Raise not_stl
  ∨ ∃ name pre post,
      tokens data = pre ++ lit "facet" :: post
      ∧ (lit "facet" ∉ pre)
      ∧ fromstl data
        = Ok (name, Z.of_nat (S (Py.count post (lit "facet"))),
              _readtext (lit "facet" :: post)).
Proof.
  intros Hb.
  destruct (Py.index (tokens data) (lit "solid")) as [i|e] eqn:Hi.
  - destruct (Py.index (tokens data) (lit "facet")) as [en|e] eqn:Hen.
    + right. rewrite (fromstl_text_unfold data i en Hb Hi Hen).
      unfold Py.index in Hen.
      destruct (Py.index_from _ _ _) as [j|] eqn:Hj; [|done].
      injection Hen as ->.
      apply index_from_split in Hj as (pre & post & Ht & Hpre & ->).
      eexists _, pre, post. split; [done|]. split; [done|].
      rewrite Ht, (count_absent _ _ _ Hpre). cbn [Nat.add].
      rewrite drop_app_length. unfold Py.count at 1.
      by rewrite filter_cons_True.
    + left. unfold fromstl, is_binary in *. rewrite Hb.
      fold (tokens data). by rewrite Hi, Hen.
  - left. unfold fromstl, is_binary in *. rewrite Hb.
    fold (tokens data). by rewrite Hi.
Qed.

Lemma fromstl_text_reader_witness :
  is_binary Sample.two_solids = false
  ∧ (fromstl Sample.two_solids = Raise not_stl
     ∨ ∃ name pre post,
         tokens Sample.two_solids = pre ++ lit "facet" :: post
         ∧ (lit "facet" ∉ pre)
         ∧ fromstl Sample.two_solids
           = Ok (name, Z.of_nat (S (Py.count post (lit "facet"))),
                 _readtext (lit "facet" :: post))).
Proof.
  assert (Hb : is_binary Sample.two_solids = false) by (vm_compute; reflexivity).
  split; [exact Hb|]. exact (fromstl_text_reader _ Hb).
Defined.

(** ** Coincident vertices *)

Section Zeros.

Lemma is_finite_spec (x : float) :
  is_finite x = match Prim2SF x with
                | S754_zero _ | S754_finite _ _ _ => true
                | _ => false
                end.
Proof.
  unfold is_finite. rewrite is_nan_spec, is_infinity_spec.
  by destruct (Prim2SF x) as [[]|[]| |[] m e].
Qed.

(** [x - x] is [+0.0] for a number [x]. *)
Lemma sub_diag_zero (x : float) : is_finite x = true → is_zero (x - x).
Proof.
  rewrite is_finite_spec. unfold is_zero. rewrite sub_spec.
  destruct (Prim2SF x) as [s|s| |s m e]; try discriminate; intros _.
  - by destruct s.
  - rewrite SFsub_finite, Z.sub_diag. exact I.
Qed.

Lemma mul_zero_l (z w : float) :
  is_zero z → is_finite w = true → is_zero (z * w).
Proof.
  rewrite is_finite_spec. unfold is_zero. rewrite mul_spec.
  destruct (Prim2SF z) as [sz|sz| |sz mz ez];
    destruct (Prim2SF w) as [s|s| |s m e]; try discriminate;
    intros Hz _; try (destruct Hz); exact I.
Qed.

Lemma mul_zero_r (w z : float) :
  is_finite w = true → is_zero z → is_zero (w * z).
Proof.
  rewrite is_finite_spec. unfold is_zero. rewrite mul_spec.
  destruct (Prim2SF z) as [sz|sz| |sz mz ez];
    destruct (Prim2SF w) as [s|s| |s m e]; try discriminate;
    intros _ Hz; try (destruct Hz); exact I.
Qed.

Lemma sub_zero_zero (x y : float) : is_zero x → is_zero y → is_zero (x - y).
Proof.
  unfold is_zero. rewrite sub_spec.
  destruct (Prim2SF x) as [sx|sx| |sx mx ex];
    destruct (Prim2SF y) as [sy|sy| |sy my ey];
    intros Hx Hy; try (destruct Hx); try (destruct Hy).
  by destruct sx, sy.
Qed.

Lemma pow_2_zero (x : float) : is_zero x → PyFloat.pow_2 x = Ok 0%float.
Proof.
  unfold is_zero, PyFloat.pow_2.
  rewrite is_nan_spec, is_infinity_spec, eqb_zero_spec.
  by destruct (Prim2SF x) as [s|s| |s m e].
Qed.

(** A vector of zeros, of either sign, has no direction for [_norm]. *)
Lemma norm_zero_vector (n0 n1 n2 : float) :
  is_zero n0 → is_zero n1 → is_zero n2 →
  _norm (n0, n1, n2) = Raise zero_length.
Proof.
  intros H0 H1 H2. rewrite norm_unfold. unfold magnitude.
  rewrite (pow_2_zero n0 H0), (pow_2_zero n1 H1), (pow_2_zero n2 H2).
  reflexivity.
Qed.

End Zeros.

(** X12. A facet with two coincident vertices is degenerate: when the first two
    vertices are the same point, or the last two, and the other edge is a
    vector of numbers, the cross product is a vector of zeros and the facet
    is reported as skipped. *)
Theorem coincident_vertices_degenerate (a b c : vec) :
  (a = b → finite_vec a = true → finite_vec (_sub c b) = true →
   is_degenerate a b c = true)
  ∧ (b = c → finite_vec b = true → finite_vec (_sub b a) = true →
     is_degenerate a b c = true).
Proof.
  destruct a as [[a0 a1] a2], b as [[b0 b1] b2], c as [[c0 c1] c2].
  unfold is_degenerate, raw_normal, finite_vec. cbn [_sub _cross].
  split.
  - intros [= -> -> ->].
    intros [[H0 H1]%andb_prop H2]%andb_prop [[G0 G1]%andb_prop G2]%andb_prop.
    rewrite norm_zero_vector; [done| | |];
      apply sub_zero_zero;
      (apply mul_zero_l; [by apply sub_diag_zero|done]).
  - intros [= <- <- <-].
    intros [[H0 H1]%andb_prop H2]%andb_prop [[G0 G1]%andb_prop G2]%andb_prop.
    rewrite norm_zero_vector; [done| | |];
      apply sub_zero_zero;
      (apply mul_zero_r; [done|by apply sub_diag_zero]).
Qed.

Lemma coincident_vertices_degenerate_witness :
  is_degenerate (1, 2, 3)%float (1, 2, 3)%float (0, 1, 0)%float = true
  ∧ is_degenerate (0, 1, 0)%float (1, 2, 3)%float (1, 2, 3)%float = true.
Proof.
  split.
  - apply (proj1 (coincident_vertices_degenerate
                    (1, 2, 3)%float (1, 2, 3)%float (0, 1, 0)%float));
      vm_compute; reflexivity.
  - apply (proj2 (coincident_vertices_degenerate
                    (0, 1, 0)%float (1, 2, 3)%float (1, 2, 3)%float));
      vm_compute; reflexivity.
Defined.

(** ** [_add] *)

Lemma SFadd_comm (x y : spec_float) : SFadd prec emax x y = SFadd prec emax y x.
Proof.
  destruct x as [sx|sx| |sx mx ex], y as [sy|sy| |sy my ey];
    try reflexivity; try (by destruct sx, sy).
  rewrite !SFadd_finite. by rewrite Z.min_comm, Z.add_comm.
Qed.

Lemma float_add_comm (x y : float) : (x + y = y + x)%float.
Proof. apply Prim2SF_inj. rewrite !add_spec. apply SFadd_comm. Qed.

(** X13. [_add] does not depend on the order of its arguments: the sum of two
    floats is rounded the same way on both sides, also when it overflows or
    is not a number. *)
Theorem add_commutative (a b : vec) : _add a b = _add b a.
Proof.
  destruct a as [[a0 a1] a2], b as [[b0 b1] b2]. unfold _add.
  by rewrite (float_add_comm a0), (float_add_comm a1), (float_add_comm a2).
Qed.

(** ** The exceptions of the text generator *)

Lemma of_str_raise (s : str) (e : exn) :
  PyFloat.of_str s = Raise e → e = bad_float s.
Proof.
  unfold PyFloat.of_str, bad_float.
  destruct (PyFloat.sign_of _) as [neg body].
  destruct (_ || _); [done|]. destruct (bool_decide _); [done|].
  destruct (PyFloat.digits 0 0 body) as [[ip ilen] s1].
  destruct (match s1 with
            | "."%char :: s1' =>
                let '(m, len, s2) := PyFloat.digits ip 0 s1' in (m, len, s2)
            | _ => (ip, 0%nat, s1)
            end) as [[m flen] s2].
  destruct (ilen + flen)%nat; [by intros [= <-]|].
  destruct (PyFloat.exponent s2); [done|by intros [= <-]].
Qed.

Lemma vertex_at_raise (items : list str) (i : nat) (e : exn) :
  vertex_at items i = Raise e → e = IndexError ∨ ∃ s, e = bad_float s.
Proof.
  unfold vertex_at, Py.getitem.
  destruct (items !! i) as [sx|]; [|intros [= <-]; by left]. cbn [bind].
  destruct (PyFloat.of_str sx) as [x|ex] eqn:Hx;
    [|intros [= <-]; right; eexists; by eapply of_str_raise]. cbn [bind].
  destruct (items !! (i + 1)%nat) as [sy|]; [|intros [= <-]; by left]. cbn [bind].
  destruct (PyFloat.of_str sy) as [y|ey] eqn:Hy;
    [|intros [= <-]; right; eexists; by eapply of_str_raise]. cbn [bind].
  destruct (items !! (i + 2)%nat) as [sz|]; [|intros [= <-]; by left]. cbn [bind].
  destruct (PyFloat.of_str sz) as [z|ez] eqn:Hz;
    [|intros [= <-]; right; eexists; by eapply of_str_raise]. done.
Qed.

Lemma block_vertices_raise (items : list str) (e : exn) :
  block_vertices items = Raise e → e = IndexError ∨ ∃ s, e = bad_float s.
Proof.
  unfold block_vertices.
  destruct (vertex_at items 8) as [a|ea] eqn:Ha;
    [|intros [= <-]; by eapply vertex_at_raise]. cbn [bind].
  destruct (vertex_at items 12) as [b|eb] eqn:Hb;
    [|intros [= <-]; by eapply vertex_at_raise]. cbn [bind].
  destruct (vertex_at items 16) as [c|ec] eqn:Hc;
    [|intros [= <-]; by eapply vertex_at_raise]. done.
Qed.

(** [emit] itself lets no exception through but [OverflowError]. *)
Lemma emit_raise (k : nat) (a b c : vec) (rest : gen item) (e : exn) :
  snd (emit k a b c rest) = Uncaught e →
  e = OverflowError ∨ snd rest = Uncaught e.
Proof.
  destruct (emit_cases k a b c rest)
    as [(n & _ & ->)|[(_ & ->)|(e' & Hn & Hd & ->)]]; cbn [snd]; auto.
  intros [= <-]. left. unfold is_degenerate in Hd. rewrite Hn in Hd.
  destruct a as [[a0 a1] a2], b as [[b0 b1] b2], c as [[c0 c1] c2].
  unfold raw_normal in Hn. cbn [_sub _cross] in Hn. rewrite norm_unfold in Hn.
  destruct (magnitude _) as [L|em] eqn:Hm.
  - destruct (L =? 0)%float; [|done]. injection Hn as <-. done.
  - injection Hn as <-. by eapply magnitude_overflow.
Qed.

(** X14. The exceptions that end the text generator: [IndexError] when the token
    list runs out, the [ValueError] of [float] on a token that is not a
    number, and the [OverflowError] of [_norm]. The zero-length
    [ValueError] of [_norm] never leaves it. *)
Theorem readtext_failure_modes (items : list str) (e : exn) :
  snd (_readtext items) = Uncaught e →
  e = IndexError ∨ e = OverflowError ∨ ∃ s, e = bad_float s.
Proof.
  unfold _readtext. generalize 0%nat as cnt.
  induction items as [items IH] using (induction_ltof1 _ length).
  unfold ltof in IH. intros cnt.
  destruct items as [|tok items'].
  { rewrite readtext_from_equation_1. intros [= <-]. by left. }
  rewrite readtext_from_equation_2. case_bool_decide; [|done].
  destruct (block_vertices (tok :: items')) as [[[a b] c]|eb] eqn:Hb.
  - intros [->|Hrest]%emit_raise; [right; by left|].
    apply IH in Hrest; [done|]. rewrite length_drop. cbn [length]. lia.
  - intros [= <-]. apply block_vertices_raise in Hb as [->|Hs]; auto.
Qed.

Lemma readtext_failure_modes_witness :
  snd (_readtext (tokens (lit Sample.triangle_text))) = Uncaught IndexError
  ∧ (IndexError = IndexError ∨ IndexError = OverflowError
     ∨ ∃ s, IndexError = bad_float s).
Proof.
  assert (H : snd (_readtext (tokens (lit Sample.triangle_text)))
              = Uncaught IndexError) by (vm_compute; reflexivity).
  split; [exact H|]. exact (readtext_failure_modes _ _ H).
Defined.
